(** * dingdong: an interleaving model of the intake / queue / worker pipeline

    The Go program of [main.go] is embedded as a small-step transition
    system.  Every atomic operation of a goroutine (an atomic counter
    update, a channel operation, a mutex operation, a map access made
    under the mutex) is one step of [step]; a schedule is a list of
    actions, each naming the goroutine that moves next. *)

From Stdlib Require Import ZArith Lia Ascii QArith.
From stdpp Require Import gmap strings list fin_maps pretty.

Local Open Scope string_scope.
Local Open Scope Z_scope.

(** ** 64-bit signed counters ([atomic.Int64]) *)

Module Int64.

Definition min_int : Z := - 2 ^ 63.
Definition max_int : Z := 2 ^ 63 - 1.

(** Two's-complement wrap-around of a 64-bit signed integer. *)
Definition wrap (z : Z) : Z := (z + 2 ^ 63) mod 2 ^ 64 - 2 ^ 63.

(** The [Add] method of [atomic.Int64]. *)
Definition Add (x delta : Z) : Z := wrap (x + delta).

Definition in_range (z : Z) : Prop := min_int <= z <= max_int.

End Int64.

(** ** Strings ([strings.Contains], [strings.Repeat], [len]) *)

Fixpoint Contains (s substr : string) : bool :=
  if String.prefix substr s then true
  else match s with
       | EmptyString => false
       | String _ s' => Contains s' substr
       end.

Fixpoint Repeat (s : string) (count : nat) : string :=
  match count with
  | O => ""
  | S n => s +:+ Repeat s n
  end.

(** [len] of a byte slice or string, as a Go [int]. *)
Definition len (s : string) : Z := Z.of_nat (String.length s).

(** ** Console output

    Each call of [fmt.Printf], [fmt.Println] or [log.Printf] is recorded
    with its format string and its arguments.  [float64] arguments are
    kept as the expression the source evaluates. *)

Inductive fexpr :=
| FInt (z : Z)                  (* float64(z) for an int64 z *)
| FConst (z : Z)                (* an untyped integer constant *)
| FDiv (a b : fexpr)
| FMul (a b : fexpr).

Inductive arg :=
| AStr (s : string)
| AInt (z : Z)
| AFloat (e : fexpr).

Inductive out :=
| Printf (format : string) (args : list arg)
| Println (s : string)
| LogPrintf (format : string) (args : list arg)
| LogPrintln (s : string).

(** The integer an [fexpr] leaf converts, and the zero test of a
    denominator: [float64(z)] is zero exactly when [z] is. *)
Fixpoint denominators (e : fexpr) : list fexpr :=
  match e with
  | FInt _ | FConst _ => []
  | FDiv a b => b :: denominators a ++ denominators b
  | FMul a b => denominators a ++ denominators b
  end.

Definition is_zero_leaf (e : fexpr) : bool :=
  match e with
  | FInt z | FConst z => Z.eqb z 0
  | _ => false
  end.

(** An expression divides by zero when one of its denominators is a
    zero leaf (all denominators of this program are leaves). *)
Definition divides_by_zero (e : fexpr) : bool :=
  existsb is_zero_leaf (denominators e).

(** The line feed written [\n] in the Go literals.  A [Printf] format is
    recorded as the source writes it (escape included); [Println]
    operands are values and use [LF]. *)
Definition LF : string := String (Ascii.ascii_of_nat 10) EmptyString.

(** ** Requests and queued bodies *)

(** What [requestHandler] reads from its [*fasthttp.RequestCtx]. *)
Record Request := {
  Method : string;
  Path : string;
  RemoteAddr : string;
  Header : list (string * string);
  Body : string
}.

Record RequestBody := {
  body : string;
  method : string
}.

(** ** The console dump of [requestHandler] (the block guarded by
    [strings.Contains(path, "dump")]) *)

Definition dumpBody (r : Request) : list out :=
  let bodyLen := len (Body r) in
  if (0 <? bodyLen) && (bodyLen <=? 1024) then
    [Printf "Body:        %s\n" [AStr (Body r)]]
  else if 1024 <? bodyLen then
    [Printf "Body:        [%d bytes - too large to display]\n" [AInt bodyLen]]
  else [].

Definition dumpRequest (r : Request) : list out :=
  [ Println (Repeat "-" 50);
    Printf "REQUEST DUMP\n" [];
    Printf "Method:      %s\n" [AStr (Method r)];
    Printf "Path:        %s\n" [AStr (Path r)];
    Printf "Remote Addr: %s\n" [AStr (RemoteAddr r)];
    Printf "Headers:\n" [] ]
  ++ map (fun kv => Printf "  %s: %s\n" [AStr (fst kv); AStr (snd kv)]) (Header r)
  ++ [ Printf "Body Size:   %d bytes\n" [AInt (len (Body r))] ]
  ++ dumpBody r
  ++ [ Println (Repeat "-" 50) ].

(** What the handler writes to the console for a request. *)
Definition handlerOutput (r : Request) : list out :=
  if Contains (Path r) "dump" then dumpRequest r else [].

(** ** Shared state *)

(** [sync.RWMutex]: the number of goroutines holding the read lock and
    whether a goroutine holds the write lock. *)
Record RWMutex := {
  readers : nat;
  writer : bool
}.

(** [Metrics].  [methodCounts] maps a method to the address of its
    counter object; the objects live in the [counters] heap of the
    state, addressed by index. *)
Record Metrics := {
  totalRequests : Z;
  totalBodySize : Z;
  droppedBodies : Z;
  methodCounts : gmap string nat;
  methodCountsMux : RWMutex
}.

(** A Go channel of [RequestBody]: the buffer, its capacity, the queue
    of goroutines parked in a receive (worker indices) and the closed
    flag. *)
Record Chan := {
  buf : list RequestBody;
  dataqsiz : nat;
  recvq : list nat;
  closed : bool
}.

(** The branch a handler's [select] took.  A history variable: no step
    reads it. *)
Inductive SelectBranch := SentCase | DefaultCase.

(** Program points of [requestHandler] (with [incrementMethodCount]
    inlined); a point names the statement executed next and carries the
    live locals. *)
Inductive HandlerPC :=
| HSetStatus
| HDump
| HSelect
| HDropAdd
| HTotalAdd
| HRLock
| HLookup
| HRUnlock (counter : option nat)
| HLock
| HRecheck
| HCreate
| HUnlock (counter : nat)
| HCounterAdd (counter : nat)
| HReturned.

Record Handler := {
  ctx : Request;
  statusCode : option Z;
  hpc : HandlerPC;
  branch : option SelectBranch
}.

(** Program points of [worker]. *)
Inductive WorkerPC :=
| WRecv
| WParked
| WAdd (rb : RequestBody)
| WExited.

(** Program points of [main] after start-up. *)
Inductive MainPC :=
| MWaitSignal
| MShutdown
| MClose
| MWait
| MDisplay
| MExit.

Record State := {
  metrics : Metrics;
  counters : list Z;
  bodyQueue : Chan;
  handlers : list Handler;
  workers : list WorkerPC;
  wg : nat;
  mainpc : MainPC;
  sigChan : bool;
  serving : bool;
  console : list out;
  panicked : bool
}.

(** ** Field updates *)

Definition setTotalRequests (v : Z) (m : Metrics) : Metrics :=
  {| totalRequests := v; totalBodySize := totalBodySize m;
     droppedBodies := droppedBodies m; methodCounts := methodCounts m;
     methodCountsMux := methodCountsMux m |}.

Definition setTotalBodySize (v : Z) (m : Metrics) : Metrics :=
  {| totalRequests := totalRequests m; totalBodySize := v;
     droppedBodies := droppedBodies m; methodCounts := methodCounts m;
     methodCountsMux := methodCountsMux m |}.

Definition setDroppedBodies (v : Z) (m : Metrics) : Metrics :=
  {| totalRequests := totalRequests m; totalBodySize := totalBodySize m;
     droppedBodies := v; methodCounts := methodCounts m;
     methodCountsMux := methodCountsMux m |}.

Definition setMethodCounts (v : gmap string nat) (m : Metrics) : Metrics :=
  {| totalRequests := totalRequests m; totalBodySize := totalBodySize m;
     droppedBodies := droppedBodies m; methodCounts := v;
     methodCountsMux := methodCountsMux m |}.

Definition setMux (v : RWMutex) (m : Metrics) : Metrics :=
  {| totalRequests := totalRequests m; totalBodySize := totalBodySize m;
     droppedBodies := droppedBodies m; methodCounts := methodCounts m;
     methodCountsMux := v |}.

Definition setBuf (v : list RequestBody) (c : Chan) : Chan :=
  {| buf := v; dataqsiz := dataqsiz c; recvq := recvq c; closed := closed c |}.

Definition setRecvq (v : list nat) (c : Chan) : Chan :=
  {| buf := buf c; dataqsiz := dataqsiz c; recvq := v; closed := closed c |}.

Definition atPC (p : HandlerPC) (h : Handler) : Handler :=
  {| ctx := ctx h; statusCode := statusCode h; hpc := p; branch := branch h |}.

Definition withStatus (code : Z) (h : Handler) : Handler :=
  {| ctx := ctx h; statusCode := Some code; hpc := hpc h; branch := branch h |}.

Definition took (b : SelectBranch) (h : Handler) : Handler :=
  {| ctx := ctx h; statusCode := statusCode h; hpc := hpc h; branch := Some b |}.

Definition setMetrics (v : Metrics) (s : State) : State :=
  {| metrics := v; counters := counters s; bodyQueue := bodyQueue s;
     handlers := handlers s; workers := workers s; wg := wg s;
     mainpc := mainpc s; sigChan := sigChan s; serving := serving s;
     console := console s; panicked := panicked s |}.

Definition setCounters (v : list Z) (s : State) : State :=
  {| metrics := metrics s; counters := v; bodyQueue := bodyQueue s;
     handlers := handlers s; workers := workers s; wg := wg s;
     mainpc := mainpc s; sigChan := sigChan s; serving := serving s;
     console := console s; panicked := panicked s |}.

Definition setBodyQueue (v : Chan) (s : State) : State :=
  {| metrics := metrics s; counters := counters s; bodyQueue := v;
     handlers := handlers s; workers := workers s; wg := wg s;
     mainpc := mainpc s; sigChan := sigChan s; serving := serving s;
     console := console s; panicked := panicked s |}.

Definition setHandlers (v : list Handler) (s : State) : State :=
  {| metrics := metrics s; counters := counters s; bodyQueue := bodyQueue s;
     handlers := v; workers := workers s; wg := wg s;
     mainpc := mainpc s; sigChan := sigChan s; serving := serving s;
     console := console s; panicked := panicked s |}.

Definition setWorkers (v : list WorkerPC) (s : State) : State :=
  {| metrics := metrics s; counters := counters s; bodyQueue := bodyQueue s;
     handlers := handlers s; workers := v; wg := wg s;
     mainpc := mainpc s; sigChan := sigChan s; serving := serving s;
     console := console s; panicked := panicked s |}.

Definition setWg (v : nat) (s : State) : State :=
  {| metrics := metrics s; counters := counters s; bodyQueue := bodyQueue s;
     handlers := handlers s; workers := workers s; wg := v;
     mainpc := mainpc s; sigChan := sigChan s; serving := serving s;
     console := console s; panicked := panicked s |}.

Definition setMainpc (v : MainPC) (s : State) : State :=
  {| metrics := metrics s; counters := counters s; bodyQueue := bodyQueue s;
     handlers := handlers s; workers := workers s; wg := wg s;
     mainpc := v; sigChan := sigChan s; serving := serving s;
     console := console s; panicked := panicked s |}.

Definition setSigChan (v : bool) (s : State) : State :=
  {| metrics := metrics s; counters := counters s; bodyQueue := bodyQueue s;
     handlers := handlers s; workers := workers s; wg := wg s;
     mainpc := mainpc s; sigChan := v; serving := serving s;
     console := console s; panicked := panicked s |}.

Definition setServing (v : bool) (s : State) : State :=
  {| metrics := metrics s; counters := counters s; bodyQueue := bodyQueue s;
     handlers := handlers s; workers := workers s; wg := wg s;
     mainpc := mainpc s; sigChan := sigChan s; serving := v;
     console := console s; panicked := panicked s |}.

Definition print (o : list out) (s : State) : State :=
  {| metrics := metrics s; counters := counters s; bodyQueue := bodyQueue s;
     handlers := handlers s; workers := workers s; wg := wg s;
     mainpc := mainpc s; sigChan := sigChan s; serving := serving s;
     console := console s ++ o; panicked := panicked s |}.

(** A Go panic that nothing recovers ends the process. *)
Definition panic (s : State) : State :=
  {| metrics := metrics s; counters := counters s; bodyQueue := bodyQueue s;
     handlers := handlers s; workers := workers s; wg := wg s;
     mainpc := mainpc s; sigChan := sigChan s; serving := serving s;
     console := console s; panicked := true |}.

Definition putHandler (i : nat) (h : Handler) (s : State) : State :=
  setHandlers (<[i := h]> (handlers s)) s.

Definition putWorker (j : nat) (w : WorkerPC) (s : State) : State :=
  setWorkers (<[j := w]> (workers s)) s.

(** ** The final report ([displayMetrics]) *)

(** [counter.Load()] through a pointer into the heap. *)
Definition Load (heap : list Z) (counter : nat) : Z :=
  default 0 (heap !! counter).

Definition percentOf (count totalReqs : Z) : fexpr :=
  FMul (FDiv (FInt count) (FInt totalReqs)) (FConst 100).

Definition displayAverage (totalBodySz totalReqs : Z) : list out :=
  if 0 <? totalBodySz then
    [Printf "Average Body Size:  %.2f KB\n"
       [AFloat (FDiv (FDiv (FInt totalBodySz) (FInt totalReqs)) (FConst 1024))]]
  else
    [Printf "Average Body Size:  0 KB (no request bodies)\n" []].

Definition displayDropped (dropped totalReqs : Z) : list out :=
  Printf "Dropped Bodies:     %d" [AInt dropped]
  :: (if 0 <? dropped then
        [Printf " (%.2f%% of requests)" [AFloat (percentOf dropped totalReqs)]]
      else [])
  ++ [Println ""].

Definition displayMethod (heap : list Z) (totalReqs : Z) (kv : string * nat) : out :=
  let count := Load heap (snd kv) in
  Printf "  %-8s %d (%.1f%%)\n"
    [AStr (fst kv); AInt count; AFloat (percentOf count totalReqs)].

Definition displayMetrics (m : Metrics) (heap : list Z) : list out :=
  let totalReqs := totalRequests m in
  let totalBodySz := totalBodySize m in
  let dropped := droppedBodies m in
  [ Println (LF +:+ Repeat "=" 50);
    Println "SERVER METRICS";
    Println (Repeat "=" 50);
    Printf "Total Requests:     %d\n" [AInt totalReqs];
    Printf "Total Body Size:    %d bytes (%.2f MB)\n"
      [AInt totalBodySz; AFloat (FDiv (FInt totalBodySz) (FConst (1024 * 1024)))] ]
  ++ displayAverage totalBodySz totalReqs
  ++ displayDropped dropped totalReqs
  ++ [ Println (LF +:+ "Requests by Method:") ]
  ++ map (displayMethod heap totalReqs) (map_to_list (methodCounts m))
  ++ [ Println (Repeat "=" 50) ].

(** ** Channel operations *)

(** The outcome of the [select] with a send case and a [default]. *)
Inductive SendResult :=
| SendPanic
| SendOk (c : Chan) (ws : list WorkerPC)
| SendDefault.

(** A non-blocking send, as the Go runtime performs it: a send on a
    closed channel panics; a parked receiver is handed the value
    directly; otherwise the value goes into the buffer when there is
    room; otherwise the send is not ready and [default] runs. *)
Definition trySend (rb : RequestBody) (c : Chan) (ws : list WorkerPC) : SendResult :=
  if closed c then SendPanic
  else match recvq c with
       | w :: rest => SendOk (setRecvq rest c) (<[w := WAdd rb]> ws)
       | [] =>
           if (length (buf c) <? dataqsiz c)%nat
           then SendOk (setBuf (buf c ++ [rb]) c) ws
           else SendDefault
       end.

(** The runtime's notion of a full channel: a send would block. *)
Definition full (c : Chan) : bool :=
  match dataqsiz c with
  | O => match recvq c with [] => true | _ => false end
  | _ => (length (buf c) =? dataqsiz c)%nat
  end.

(** [close(bodyQueue)]: parked receivers are released (each then sees
    the closed, empty channel). *)
Definition closeChan (c : Chan) : Chan :=
  {| buf := buf c; dataqsiz := dataqsiz c; recvq := []; closed := true |}.

(** ** One step of [requestHandler]

    The dump block is a single step: its console writes are recorded
    together, in program order, when the handler leaves the block.  How
    the writes of concurrent handlers interleave on the console, and a
    write that blocks, are not modelled; what is proved about the
    progress of handlers is stated for handlers past the dump block. *)

Definition returned (h : Handler) : bool :=
  match hpc h with HReturned => true | _ => false end.

Definition stepHandler (i : nat) (s : State) : option State :=
  match handlers s !! i with
  | None => None
  | Some h =>
    let m := metrics s in
    let mux := methodCountsMux m in
    let meth := Method (ctx h) in
    match hpc h with
    | HSetStatus =>
        Some (putHandler i (withStatus 200 (atPC HDump h)) s)
    | HDump =>
        Some (putHandler i (atPC HSelect h) (print (handlerOutput (ctx h)) s))
    | HSelect =>
        let bodyLen := len (Body (ctx h)) in
        if 0 <? bodyLen then
          let bodyCopy := Body (ctx h) in
          match trySend {| body := bodyCopy; method := meth |}
                        (bodyQueue s) (workers s) with
          | SendPanic => Some (panic s)
          | SendOk c ws =>
              Some (putHandler i (took SentCase (atPC HTotalAdd h))
                      (setWorkers ws (setBodyQueue c s)))
          | SendDefault =>
              Some (putHandler i (took DefaultCase (atPC HDropAdd h)) s)
          end
        else Some (putHandler i (atPC HTotalAdd h) s)
    | HDropAdd =>
        Some (putHandler i (atPC HTotalAdd h)
                (setMetrics (setDroppedBodies (Int64.Add (droppedBodies m) 1) m) s))
    | HTotalAdd =>
        Some (putHandler i (atPC HRLock h)
                (setMetrics (setTotalRequests (Int64.Add (totalRequests m) 1) m) s))
    | HRLock =>
        if writer mux then None
        else Some (putHandler i (atPC HLookup h)
                     (setMetrics (setMux {| readers := S (readers mux);
                                            writer := writer mux |} m) s))
    | HLookup =>
        Some (putHandler i (atPC (HRUnlock (methodCounts m !! meth)) h) s)
    | HRUnlock counter =>
        let next := match counter with
                    | Some a => HCounterAdd a
                    | None => HLock
                    end in
        Some (putHandler i (atPC next h)
                (setMetrics (setMux {| readers := Nat.pred (readers mux);
                                       writer := writer mux |} m) s))
    | HLock =>
        if writer mux || negb (readers mux =? 0)%nat then None
        else Some (putHandler i (atPC HRecheck h)
                     (setMetrics (setMux {| readers := readers mux;
                                            writer := true |} m) s))
    | HRecheck =>
        let next := match methodCounts m !! meth with
                    | Some a => HUnlock a
                    | None => HCreate
                    end in
        Some (putHandler i (atPC next h) s)
    | HCreate =>
        let a := length (counters s) in
        Some (putHandler i (atPC (HUnlock a) h)
                (setCounters (counters s ++ [0])
                   (setMetrics (setMethodCounts (<[meth := a]> (methodCounts m)) m) s)))
    | HUnlock a =>
        Some (putHandler i (atPC (HCounterAdd a) h)
                (setMetrics (setMux {| readers := readers mux;
                                       writer := false |} m) s))
    | HCounterAdd a =>
        match counters s !! a with
        | Some v =>
            Some (putHandler i (atPC HReturned h)
                    (setCounters (<[a := Int64.Add v 1]> (counters s)) s))
        | None => Some (panic s)
        end
    | HReturned => None
    end
  end.

(** ** One step of [worker] *)

Definition stepWorker (j : nat) (s : State) : option State :=
  match workers s !! j with
  | None => None
  | Some w =>
    let c := bodyQueue s in
    let m := metrics s in
    match w with
    | WRecv =>
        match buf c with
        | rb :: rest =>
            Some (putWorker j (WAdd rb) (setBodyQueue (setBuf rest c) s))
        | [] =>
            if closed c
            then Some (putWorker j WExited (setWg (Nat.pred (wg s)) s))
            else Some (putWorker j WParked
                         (setBodyQueue (setRecvq (recvq c ++ [j]) c) s))
        end
    | WParked =>
        if closed c
        then Some (putWorker j WExited (setWg (Nat.pred (wg s)) s))
        else None
    | WAdd rb =>
        let bodySize := len (body rb) in
        Some (putWorker j WRecv
                (setMetrics (setTotalBodySize (Int64.Add (totalBodySize m) bodySize) m) s))
    | WExited => None
    end
  end.

(** ** One step of [main] (from [<-sigChan] on) *)

Definition stepMain (shutdownErr : option string) (s : State) : option State :=
  match mainpc s with
  | MWaitSignal =>
      if sigChan s
      then Some (setMainpc MShutdown
                   (setSigChan false
                      (print [LogPrintln (LF +:+ "Shutting down server...")] s)))
      else None
  | MShutdown =>
      match shutdownErr with
      | None =>
          if forallb returned (handlers s)
          then Some (setMainpc MClose (setServing false s))
          else None
      | Some err =>
          Some (setMainpc MClose
                  (print [LogPrintf "Server shutdown error: %v" [AStr err]] s))
      end
  | MClose =>
      if closed (bodyQueue s) then Some (panic s)
      else Some (setMainpc MWait (setBodyQueue (closeChan (bodyQueue s)) s))
  | MWait =>
      if (wg s =? 0)%nat then Some (setMainpc MDisplay s) else None
  | MDisplay =>
      if writer (methodCountsMux (metrics s)) then None
      else Some (setMainpc MExit
                   (print (displayMetrics (metrics s) (counters s)) s))
  | MExit => None
  end.

(** ** Scheduling *)

Inductive action :=
| Signal
| Accept (r : Request)
| StepHandler (i : nat)
| StepWorker (j : nat)
| StepMain (shutdownErr : option string).

Definition newHandler (r : Request) : Handler :=
  {| ctx := r; statusCode := None; hpc := HSetStatus; branch := None |}.

Definition exited (p : MainPC) : bool :=
  match p with MExit => true | _ => false end.

(** The process runs until [main] returns or a panic ends it. *)
Definition step (a : action) (s : State) : option State :=
  if panicked s || exited (mainpc s) then None
  else match a with
       | Signal => Some (setSigChan true s)
       | Accept r =>
           if serving s
           then Some (setHandlers (handlers s ++ [newHandler r]) s)
           else None
       | StepHandler i => stepHandler i s
       | StepWorker j => stepWorker j s
       | StepMain shutdownErr => stepMain shutdownErr s
       end.

Fixpoint run (sched : list action) (s : State) : option State :=
  match sched with
  | [] => Some s
  | a :: rest =>
      match step a s with
      | Some s' => run rest s'
      | None => None
      end
  end.

(** ** Start-up ([init] and the first part of [main]) *)

Record Config := {
  workersFlag : Z;
  queueSizeFlag : Z
}.

(** [make(chan RequestBody, n)] panics for a negative [n]; the worker
    loop starts no goroutine when the count is not positive. *)
Definition boot (cfg : Config) : option State :=
  if queueSizeFlag cfg <? 0 then None
  else Some
    {| metrics := {| totalRequests := 0; totalBodySize := 0; droppedBodies := 0;
                     methodCounts := ∅;
                     methodCountsMux := {| readers := 0; writer := false |} |};
       counters := [];
       bodyQueue := {| buf := []; dataqsiz := Z.to_nat (queueSizeFlag cfg);
                       recvq := []; closed := false |};
       handlers := [];
       workers := replicate (Z.to_nat (workersFlag cfg)) WRecv;
       wg := Z.to_nat (workersFlag cfg);
       mainpc := MWaitSignal;
       sigChan := false;
       serving := true;
       console := [];
       panicked := false |}.

(** The states the program can be in. *)
Definition reachable (cfg : Config) (s : State) : Prop :=
  exists s0 sched, boot cfg = Some s0 /\ run sched s0 = Some s.

(** ** Observations used in the statements *)

Definition sumZ {A} (f : A -> Z) (l : list A) : Z :=
  foldr (fun x acc => f x + acc) 0 l.

(** The handler has executed [metrics.totalRequests.Add(1)]. *)
Definition countedTotal (h : Handler) : Z :=
  match hpc h with
  | HSetStatus | HDump | HSelect | HDropAdd | HTotalAdd => 0
  | _ => 1
  end.

(** The handler has executed [counter.Add(1)] for method [meth]. *)
Definition countedMethod (meth : string) (h : Handler) : Z :=
  match hpc h with
  | HReturned => if decide (Method (ctx h) = meth) then 1 else 0
  | _ => 0
  end.

(** The handler's [select] took the send case / the default case. *)
Definition sent (h : Handler) : bool :=
  match branch h with Some SentCase => true | _ => false end.

Definition dropped (h : Handler) : bool :=
  match branch h with Some DefaultCase => true | _ => false end.

Definition bodyLen (h : Handler) : Z := len (Body (ctx h)).

Definition sentLen (h : Handler) : Z := if sent h then bodyLen h else 0.

Definition droppedLen (h : Handler) : Z := if dropped h then bodyLen h else 0.

(** The handler has executed [metrics.droppedBodies.Add(1)]. *)
Definition countedDrop (h : Handler) : Z :=
  match hpc h with
  | HDropAdd => 0
  | _ => if dropped h then 1 else 0
  end.

Definition inReadSection (h : Handler) : Z :=
  match hpc h with
  | HLookup | HRUnlock _ => 1
  | _ => 0
  end.

Definition inWriteSection (h : Handler) : Z :=
  match hpc h with
  | HRecheck | HCreate | HUnlock _ => 1
  | _ => 0
  end.

(** Bytes a worker holds between its receive and its [Add]. *)
Definition inHand (w : WorkerPC) : Z :=
  match w with
  | WAdd rb => len (body rb)
  | _ => 0
  end.

Definition live (w : WorkerPC) : Z :=
  match w with
  | WExited => 0
  | _ => 1
  end.

Definition queuedLen (rb : RequestBody) : Z := len (body rb).

(** The value of [methodCounts[meth]], when the entry exists. *)
Definition methodCount (s : State) (meth : string) : option Z :=
  match methodCounts (metrics s) !! meth with
  | Some a => counters s !! a
  | None => None
  end.

(** The sum over all methods of [methodCounts[method]]. *)
Definition sumMethodCounts (s : State) : Z :=
  sumZ (fun kv => Load (counters s) (snd kv)) (map_to_list (methodCounts (metrics s))).

(** No [requestHandler] invocation is in flight. *)
Definition quiescent (s : State) : Prop :=
  forall h, h ∈ handlers s -> hpc h = HReturned.

(** A worker is between its receive and its [Add]. *)
Definition holding (w : WorkerPC) : bool :=
  match w with WAdd _ => true | _ => false end.

(** The queue is empty and no worker holds an item. *)
Definition drained (s : State) : Prop :=
  buf (bodyQueue s) = [] /\ forall w, w ∈ workers s -> holding w = false.

(** The number of completed [incrementMethodCount] calls for [meth]. *)
Definition callsOf (meth : string) (s : State) : Z :=
  sumZ (countedMethod meth) (handlers s).

(** ** The invariant of the reachable states *)

(** What a handler's program point says about its locals, the method
    map and its [select] branch. *)
Definition handlerOk (mc : gmap string nat) (h : Handler) : Prop :=
  let meth := Method (ctx h) in
  (match hpc h with
   | HRUnlock (Some a) | HUnlock a | HCounterAdd a => mc !! meth = Some a
   | HCreate => mc !! meth = None
   | HReturned => is_Some (mc !! meth)
   | _ => True
   end)
  /\ (match hpc h with
      | HSetStatus => statusCode h = None /\ branch h = None
      | HDump | HSelect => statusCode h = Some 200 /\ branch h = None
      | HDropAdd => statusCode h = Some 200 /\ branch h = Some DefaultCase
                    /\ 0 < bodyLen h
      | _ => statusCode h = Some 200
             /\ if 0 <? bodyLen h then is_Some (branch h) else branch h = None
      end).

Record Inv (s : State) : Prop := {
  inv_total :
    totalRequests (metrics s) = Int64.wrap (sumZ countedTotal (handlers s));
  inv_dropped :
    droppedBodies (metrics s) = Int64.wrap (sumZ countedDrop (handlers s));
  inv_bytes :
    totalBodySize (metrics s)
    = Int64.wrap (sumZ sentLen (handlers s)
                  - sumZ queuedLen (buf (bodyQueue s))
                  - sumZ inHand (workers s));
  inv_consumed :
    0 <= sumZ sentLen (handlers s)
         - sumZ queuedLen (buf (bodyQueue s))
         - sumZ inHand (workers s);
  inv_recvq :
    forall j, j ∈ recvq (bodyQueue s) -> workers s !! j = Some WParked;
  inv_recvq_nodup : NoDup (recvq (bodyQueue s));
  inv_recvq_buf : recvq (bodyQueue s) <> [] -> buf (bodyQueue s) = [];
  inv_cap : (length (buf (bodyQueue s)) <= dataqsiz (bodyQueue s))%nat;
  inv_closed_recvq : closed (bodyQueue s) = true -> recvq (bodyQueue s) = [];
  inv_parked :
    closed (bodyQueue s) = false ->
    forall j, workers s !! j = Some WParked -> j ∈ recvq (bodyQueue s);
  inv_parked_buf : WParked ∈ workers s -> buf (bodyQueue s) = [];
  inv_wg : Z.of_nat (wg s) = sumZ live (workers s);
  inv_readers :
    Z.of_nat (readers (methodCountsMux (metrics s)))
    = sumZ inReadSection (handlers s);
  inv_writer :
    sumZ inWriteSection (handlers s)
    = if writer (methodCountsMux (metrics s)) then 1 else 0;
  inv_excl :
    writer (methodCountsMux (metrics s)) = true ->
    readers (methodCountsMux (metrics s)) = 0%nat;
  inv_handlers :
    forall h, h ∈ handlers s -> handlerOk (methodCounts (metrics s)) h;
  inv_inj :
    forall m1 m2 a,
      methodCounts (metrics s) !! m1 = Some a ->
      methodCounts (metrics s) !! m2 = Some a -> m1 = m2;
  inv_objects : length (counters s) = size (methodCounts (metrics s));
  inv_count :
    forall meth a,
      methodCounts (metrics s) !! meth = Some a ->
      counters s !! a = Some (Int64.wrap (callsOf meth s));
  inv_used :
    forall meth,
      is_Some (methodCounts (metrics s) !! meth) ->
      exists h, h ∈ handlers s /\ Method (ctx h) = meth;
  inv_exited :
    WExited ∈ workers s ->
    closed (bodyQueue s) = true /\ buf (bodyQueue s) = [];
  inv_closed :
    closed (bodyQueue s) = true <->
    (mainpc s = MWait \/ mainpc s = MDisplay \/ mainpc s = MExit);
  inv_display :
    mainpc s = MDisplay \/ mainpc s = MExit -> wg s = 0%nat;
  inv_report :
    mainpc s = MExit ->
    exists pre, console s = (pre ++ displayMetrics (metrics s) (counters s))%list
}.

(** The exact value of a float expression, [None] when it divides by
    zero (where float64 arithmetic gives an infinity or a NaN); the
    rounding of the float64 operations is not modelled. *)
Fixpoint fvalue (e : fexpr) : option Q :=
  match e with
  | FInt z | FConst z => Some (inject_Z z)
  | FDiv a b =>
      match fvalue a, fvalue b with
      | Some x, Some y => if Qeq_bool y 0 then None else Some (x / y)%Q
      | _, _ => None
      end
  | FMul a b =>
      match fvalue a, fvalue b with
      | Some x, Some y => Some (x * y)%Q
      | _, _ => None
      end
  end.

(** ** Rendering of console output

    [fmt.Sprintf] for the verbs this program uses with string and
    integer operands: [%s], [%v], [%d] and the literal [%%]; the escape
    [\n] of the Go literal is the line feed.  A verb with a width or a
    precision ([%-8s], [%.2f]) is left as written. *)

Definition showArg (a : arg) : string :=
  match a with
  | AStr s => s
  | AInt z => pretty z
  | AFloat _ => "%!(float)"
  end.

Fixpoint sprintf (format : string) (args : list arg) : string :=
  match format with
  | EmptyString => EmptyString
  | String "\"%char (String "n"%char rest) => LF +:+ sprintf rest args
  | String "%"%char (String "%"%char rest) => String "%"%char (sprintf rest args)
  | String "%"%char (String "s"%char rest)
  | String "%"%char (String "d"%char rest)
  | String "%"%char (String "v"%char rest) =>
      match args with
      | a :: args' => showArg a +:+ sprintf rest args'
      | [] => "%!(MISSING)" +:+ sprintf rest []
      end
  | String c rest => String c (sprintf rest args)
  end.

(** The text a console record puts on the terminal ([Println] and the
    [log] calls end the line; the [log] prefix is not modelled). *)
Definition render (o : out) : string :=
  match o with
  | Printf format args => sprintf format args
  | Println s => s +:+ LF
  | LogPrintf format args => sprintf format args +:+ LF
  | LogPrintln s => s +:+ LF
  end.

(** ** A request handled with no other goroutine interleaved *)

(** Steps handler [i] until it has returned, at most [fuel] times. *)
Fixpoint runHandler (fuel : nat) (i : nat) (s : State) : option State :=
  match handlers s !! i with
  | None => None
  | Some h =>
      if returned h then Some s
      else match fuel with
           | O => None
           | S fuel' =>
               match step (StepHandler i) s with
               | Some s' => runHandler fuel' i s'
               | None => None
               end
           end
  end.

(** The listener accepts [r] and [requestHandler] runs to its end; the
    longest path through the handler takes 13 steps. *)
Definition serveAlone (r : Request) (s : State) : option State :=
  match step (Accept r) s with
  | Some s' => runHandler 13 (length (handlers s)) s'
  | None => None
  end.

(** The position of [main] in the shutdown sequence. *)
Definition phase (p : MainPC) : nat :=
  match p with
  | MWaitSignal => 0
  | MShutdown => 1
  | MClose => 2
  | MWait => 3
  | MDisplay => 4
  | MExit => 5
  end.

(** * Proofs *)

(** ** 64-bit arithmetic *)

Lemma wrap_small z : Int64.in_range z -> Int64.wrap z = z.
Proof.
  unfold Int64.in_range, Int64.wrap, Int64.min_int, Int64.max_int. intros H.
  rewrite Z.mod_small; lia.
Qed.

Lemma wrap_in_range z : Int64.in_range (Int64.wrap z).
Proof.
  unfold Int64.in_range, Int64.wrap, Int64.min_int, Int64.max_int.
  pose proof (Z.mod_pos_bound (z + 2 ^ 63) (2 ^ 64)). lia.
Qed.

Lemma Add_wrap x d : Int64.Add (Int64.wrap x) d = Int64.wrap (x + d).
Proof.
  unfold Int64.Add, Int64.wrap.
  replace ((x + 2 ^ 63) mod 2 ^ 64 - 2 ^ 63 + d + 2 ^ 63)
    with ((x + 2 ^ 63) mod 2 ^ 64 + d) by lia.
  rewrite Zplus_mod_idemp_l. f_equal. f_equal. lia.
Qed.

Lemma in_range_nonneg_le a b :
  0 <= a <= b -> Int64.in_range b -> Int64.in_range a.
Proof. unfold Int64.in_range, Int64.min_int, Int64.max_int. lia. Qed.

(** ** Sums over lists *)

Section Sums.
Context {A : Type}.
Implicit Types (f g : A -> Z) (l : list A).

Lemma sumZ_app f l1 l2 : sumZ f (l1 ++ l2) = sumZ f l1 + sumZ f l2.
Proof. induction l1 as [|x l1 IH]; simpl; [done | rewrite IH; lia]. Qed.

Lemma sumZ_insert f l i x y :
  l !! i = Some x -> sumZ f (<[i := y]> l) = sumZ f l - f x + f y.
Proof.
  revert i. induction l as [|z l IH]; intros [|i] Hi; simplify_eq/=.
  - lia.
  - rewrite (IH _ Hi). lia.
Qed.

Lemma sumZ_nonneg f l : (forall x, 0 <= f x) -> 0 <= sumZ f l.
Proof.
  intros Hf. induction l as [|x l IH]; simpl; [lia | specialize (Hf x); lia].
Qed.

Lemma sumZ_lookup_le f l i x :
  (forall x, 0 <= f x) -> l !! i = Some x -> f x <= sumZ f l.
Proof.
  intros Hf. revert i. induction l as [|z l IH]; intros [|i] Hi; simplify_eq/=.
  - pose proof (sumZ_nonneg f l Hf). lia.
  - specialize (IH _ Hi). specialize (Hf z). lia.
Qed.

Lemma sumZ_lookup_le2 f l i j x y :
  (forall x, 0 <= f x) -> i <> j ->
  l !! i = Some x -> l !! j = Some y -> f x + f y <= sumZ f l.
Proof.
  intros Hf. revert i j.
  induction l as [|z l IH]; intros [|i] [|j] Hij Hi Hj; simplify_eq/=.
  - pose proof (sumZ_lookup_le f l j y Hf Hj). lia.
  - pose proof (sumZ_lookup_le f l i x Hf Hi). lia.
  - assert (i <> j) as Hne by congruence.
    specialize (IH i j Hne Hi Hj). specialize (Hf z). lia.
Qed.

Lemma sumZ_zero f l : (forall x, x ∈ l -> f x = 0) -> sumZ f l = 0.
Proof.
  induction l as [|x l IH]; intros H; simpl; [done|].
  rewrite (H x), IH; [done | | ].
  - intros y Hy. apply H. by right.
  - by left.
Qed.

Lemma sumZ_zero_inv f l x :
  (forall x, 0 <= f x) -> sumZ f l = 0 -> x ∈ l -> f x = 0.
Proof.
  intros Hf H0 Hx. apply list_elem_of_lookup in Hx as [i Hi].
  pose proof (sumZ_lookup_le f l i x Hf Hi). specialize (Hf x). lia.
Qed.

Lemma sumZ_ext f g l : (forall x, x ∈ l -> f x = g x) -> sumZ f l = sumZ g l.
Proof.
  induction l as [|x l IH]; intros H; simpl; [done|].
  rewrite (H x), IH; [done | | ].
  - intros y Hy. apply H. by right.
  - by left.
Qed.

Lemma sumZ_replicate f n x : sumZ f (replicate n x) = Z.of_nat n * f x.
Proof. induction n as [|n IH]; simpl; [lia | rewrite IH; lia]. Qed.

Lemma sumZ_le f g l : (forall x, x ∈ l -> f x <= g x) -> sumZ f l <= sumZ g l.
Proof.
  induction l as [|x l IH]; intros H; simpl; [lia|].
  assert (f x <= g x) by (apply H; by left).
  assert (sumZ f l <= sumZ g l) by (apply IH; intros y Hy; apply H; by right).
  lia.
Qed.

Lemma sumZ_length f l : (forall x, x ∈ l -> f x = 1) -> sumZ f l = Z.of_nat (length l).
Proof.
  induction l as [|x l IH]; intros H; simpl length; simpl sumZ; [done|].
  rewrite (H x), IH; [lia | | ].
  - intros y Hy. apply H. by right.
  - by left.
Qed.

End Sums.

(** ** The invariant holds initially and is kept by every step *)

Lemma boot_Inv cfg s0 : boot cfg = Some s0 -> Inv s0.
Proof.
  unfold boot. destruct (queueSizeFlag cfg <? 0) eqn:Hq; [done|].
  intros [= <-]. split; simpl; try done.
  - rewrite sumZ_replicate. simpl. by rewrite Z.mul_0_r.
  - rewrite sumZ_replicate. simpl. lia.
  - intros j Hj. by apply elem_of_nil in Hj.
  - constructor.
  - lia.
  - intros _ j Hj. apply lookup_replicate in Hj as [? _]. done.
  - rewrite sumZ_replicate. simpl. lia.
  - intros h Hh. by apply elem_of_nil in Hh.
  - intros meth [a Ha]. by rewrite lookup_empty in Ha.
  - intros Hw. apply elem_of_replicate in Hw as [? _]. done.
  - split; [done | intros [?|[?|?]]; done].
  - intros [?|?]; done.
Qed.


Ltac proj :=
  cbn [metrics counters bodyQueue handlers workers wg mainpc sigChan serving console panicked
       putHandler putWorker setMetrics setCounters setBodyQueue setHandlers setWorkers setWg setMainpc
       setSigChan setServing print panic
       totalRequests totalBodySize droppedBodies methodCounts methodCountsMux
       setTotalRequests setTotalBodySize setDroppedBodies setMethodCounts setMux
       readers writer buf dataqsiz recvq closed setBuf setRecvq closeChan] in *.

Ltac name_sums :=
  repeat match goal with
  | |- context [sumZ ?f ?l] => let X := fresh "X" in set (X := sumZ f l) in *
  | H : context [sumZ ?f ?l] |- _ => let X := fresh "X" in set (X := sumZ f l) in *
  end.

Ltac usebranch :=
  repeat match goal with
  | H : _ /\ _ |- _ => destruct H
  end;
  repeat match goal with
  | H : branch _ = _ |- _ => rewrite H in *
  | H : statusCode _ = _ |- _ => rewrite H in *
  end.

Ltac weights Hpc :=
  unfold callsOf in *; name_sums;
  unfold countedTotal, countedDrop, countedMethod, sentLen, droppedLen, inReadSection,
    inWriteSection, sent, dropped, bodyLen in *;
  cbn [hpc ctx statusCode branch atPC withStatus took] in *;
  rewrite ?Hpc in *; usebranch.

Ltac bools :=
  repeat match goal with
  | H : _ || _ = false |- _ => apply orb_false_iff in H as [? ?]
  | H : negb _ = false |- _ => apply negb_false_iff in H
  | H : negb _ = true |- _ => apply negb_true_iff in H
  | H : (_ =? _)%nat = true |- _ => apply Nat.eqb_eq in H
  | H : (_ =? _)%nat = false |- _ => apply Nat.eqb_neq in H
  | H : (_ <? _)%nat = true |- _ => apply Nat.ltb_lt in H
  | H : (_ <? _)%nat = false |- _ => apply Nat.ltb_ge in H
  | H : (_ <? _) = true |- _ => apply Z.ltb_lt in H
  | H : (_ <? _) = false |- _ => apply Z.ltb_ge in H
  end;
  repeat match goal with
  | H : writer _ = _ |- _ => rewrite H in *
  | H : closed _ = _ |- _ => rewrite H in *
  end.

Ltac arith :=
  bools;
  repeat match goal with
  | H : totalRequests _ = _ |- _ => rewrite H; clear H
  | H : totalBodySize _ = _ |- _ => rewrite H; clear H
  | H : droppedBodies _ = _ |- _ => rewrite H; clear H
  end;
  rewrite ?Add_wrap;
  try (f_equal; lia); try lia.

Lemma elem_of_insert_inv {A} (l : list A) i x y :
  y ∈ <[i := x]> l -> y = x \/ y ∈ l.
Proof.
  intros Hy. apply list_elem_of_lookup in Hy as [j Hj].
  apply list_lookup_insert_Some in Hj as [(-> & -> & _) | (_ & Hj)].
  - by left.
  - right. apply list_elem_of_lookup. eauto.
Qed.

Lemma handlers_put mc (hs : list Handler) (i : nat) h' :
  (forall h0, h0 ∈ hs -> handlerOk mc h0) -> handlerOk mc h' ->
  forall h0, h0 ∈ <[i := h']> hs -> handlerOk mc h0.
Proof.
  intros Hall Hnew h0 Hin. apply elem_of_insert_inv in Hin as [-> | Hin]; auto.
Qed.

Lemma used_put (hs : list Handler) i h h' meth :
  hs !! i = Some h -> ctx h' = ctx h ->
  (exists h0, h0 ∈ hs /\ Method (ctx h0) = meth) ->
  exists h0, h0 ∈ <[i := h']> hs /\ Method (ctx h0) = meth.
Proof.
  intros Hi Hctx (h0 & Hin & Hm). apply list_elem_of_lookup in Hin as [j Hj].
  destruct (decide (i = j)) as [-> | Hne].
  - exists h'. split.
    + apply list_elem_of_lookup. exists j. apply list_lookup_insert_eq.
      by eapply lookup_lt_Some.
    + rewrite Hctx. congruence.
  - exists h0. split; [|done]. apply list_elem_of_lookup. exists j.
    by rewrite list_lookup_insert_ne.
Qed.

Ltac hstart HI Hi Hpc Hs Hok :=
  unfold stepHandler in Hs; rewrite Hi, ?Hpc in Hs; cbn [hpc] in Hs;
  pose proof (inv_handlers _ HI _ (proj2 (list_elem_of_lookup _ _) (ex_intro _ _ Hi))) as Hok;
  unfold handlerOk in Hok; rewrite Hpc in Hok.

Ltac hsplit HI Hi :=
  let HI' := fresh "HI'" in pose proof HI as HI';
  destruct HI' as [I_total I_dropped I_bytes I_consumed I_recvq I_recvq_nodup I_recvq_buf
                   I_cap I_closed_recvq I_parked I_parked_buf I_wg I_readers I_writer I_excl
                   I_handlers I_inj I_objects I_count I_used I_exited
                   I_closed I_display I_report];
  split; unfold callsOf in *; proj; intros; rewrite ?(sumZ_insert _ _ _ _ _ Hi);
  try assumption; try congruence; try (by eauto).


Ltac hok :=
  match goal with
  | H : ?h0 ∈ <[_ := _]> _ |- handlerOk _ ?h0 =>
      revert h0 H; apply handlers_put; [done|];
      unfold handlerOk, bodyLen in *;
      cbn [hpc ctx statusCode branch atPC withStatus took] in *; usebranch;
      repeat match goal with
      | |- context [0 <? ?x] => destruct (Z.ltb_spec 0 x)
      end
  end.

Ltac hcount Hpc :=
  match goal with
  | |- _ !! _ = Some (Int64.wrap _) =>
      weights Hpc; rewrite ?Z.sub_0_r, ?Z.add_0_r; eauto
  end.

Ltac hused Hi :=
  match goal with
  | |- exists h0, h0 ∈ <[_ := _]> _ /\ _ =>
      eapply used_put; [exact Hi | reflexivity | eauto]
  end.

Ltac hgo Hi Hpc :=
  try (timeout 10 (weights Hpc; arith); fail);
  try (hcount Hpc; fail);
  try (hused Hi; fail);
  try (hok; timeout 10 (repeat split; eauto; try congruence; try lia); fail).


Lemma elem_of_insert_inv2 {A} (l : list A) (i : nat) x y :
  y ∈ <[i := x]> l -> y = x \/ exists j, j <> i /\ l !! j = Some y.
Proof.
  intros Hy. apply list_elem_of_lookup in Hy as [j Hj].
  apply list_lookup_insert_Some in Hj as [(-> & -> & _) | (Hne & Hj)].
  - by left.
  - right. exists j. split; [congruence | done].
Qed.

Lemma inWriteSection_nonneg h : 0 <= inWriteSection h.
Proof. unfold inWriteSection. destruct (hpc h); lia. Qed.

Lemma inReadSection_nonneg h : 0 <= inReadSection h.
Proof. unfold inReadSection. destruct (hpc h); lia. Qed.

Lemma countedMethod_nonneg meth h : 0 <= countedMethod meth h.
Proof. unfold countedMethod. destruct (hpc h); try lia. case_decide; lia. Qed.

(** Under the write lock no other handler is in the write section. *)
Lemma writer_alone s i j h h' :
  Inv s -> handlers s !! i = Some h -> handlers s !! j = Some h' -> j <> i ->
  inWriteSection h = 1 -> inWriteSection h' = 0.
Proof.
  intros HI Hi Hj Hne Hw.
  pose proof (sumZ_lookup_le2 inWriteSection _ _ _ _ _ inWriteSection_nonneg
                (not_eq_sym Hne) Hi Hj) as Hle.
  rewrite (inv_writer _ HI) in Hle.
  pose proof (inWriteSection_nonneg h').
  destruct (writer _); lia.
Qed.

Lemma stepHandler_create_Inv i s h :
  Inv s -> mainpc s <> MExit -> handlers s !! i = Some h -> hpc h = HCreate ->
  Inv (putHandler i (atPC (HUnlock (length (counters s))) h)
         (setCounters (counters s ++ [0])
            (setMetrics (setMethodCounts
               (<[Method (ctx h) := length (counters s)]> (methodCounts (metrics s)))
               (metrics s)) s))).
Proof.
  intros HI Hrun Hi Hpc.
  pose proof (inv_handlers _ HI _ (proj2 (list_elem_of_lookup _ _) (ex_intro _ _ Hi))) as Hok.
  unfold handlerOk in Hok. rewrite Hpc in Hok. destruct Hok as [Hnone Hst].
  assert (Hlt : forall m a, methodCounts (metrics s) !! m = Some a ->
                            (a < length (counters s))%nat).
  { intros m a Hm. eapply lookup_lt_Some. by apply (inv_count _ HI). }
  hsplit HI Hi; hgo Hi Hpc.
  - (* handlers *)
    match goal with H : _ ∈ <[_ := _]> _ |- _ =>
      apply elem_of_insert_inv2 in H as [-> | (j & Hne & Hj)] end.
    + unfold handlerOk. cbn [hpc ctx statusCode branch atPC].
      rewrite lookup_insert_eq. by split.
    + pose proof (I_handlers _ (proj2 (list_elem_of_lookup _ _) (ex_intro _ _ Hj))) as Hok0.
      assert (inWriteSection h0 = 0) as Hw0.
      { eapply (writer_alone s i j h h0); eauto.
        unfold inWriteSection. by rewrite Hpc. }
      unfold handlerOk, inWriteSection in *.
      destruct Hok0 as [Hp0 Hb0]. split; [|exact Hb0].
      destruct (hpc h0) as [| | | | | | |[a0|]| | | |a0|a0|] eqn:Hpc0; try done.
      * rewrite lookup_insert_ne; [done | congruence].
      * rewrite lookup_insert_ne; [done | congruence].
      * destruct Hp0 as [a0 Ha0]. exists a0.
        rewrite lookup_insert_ne; [done | congruence].
  - (* injectivity *)
    repeat match goal with H : <[_ := _]> _ !! _ = Some _ |- _ =>
      apply lookup_insert_Some in H as [[? ?] | [? ?]] end; subst; try done.
    + match goal with H : _ !! _ = Some (length _) |- _ => apply Hlt in H; lia end.
    + match goal with H : _ !! _ = Some (length _) |- _ => apply Hlt in H; lia end.
    + eauto.
  - (* one object per method *)
    rewrite length_app, map_size_insert_None by done. simpl. lia.
  - (* counts *)
    match goal with H : <[_ := _]> _ !! _ = Some _ |- _ =>
      apply lookup_insert_Some in H as [[? ?] | [? Hold]] end; subst.
    + rewrite lookup_app_r, Nat.sub_diag by lia. simpl. f_equal.
      rewrite sumZ_zero.
      * unfold countedMethod. cbn [hpc atPC]. by rewrite Hpc.
      * intros x Hx. unfold countedMethod.
        destruct (hpc x) eqn:Hpcx; try done. case_decide as Hmx; [|done].
        specialize (I_handlers x Hx). unfold handlerOk in I_handlers.
        rewrite Hpcx, Hmx in I_handlers.
        destruct I_handlers as [[? Hs] _]. congruence.
    + rewrite lookup_app_l by (eapply Hlt; eauto).
      rewrite (I_count _ _ Hold).
      replace (countedMethod meth h) with 0
        by (unfold countedMethod; by rewrite Hpc).
      replace (countedMethod meth (atPC (HUnlock (length (counters s))) h)) with 0
        by done.
      do 2 f_equal. lia.
  - (* used *)
    match goal with H : is_Some (<[_ := _]> _ !! ?m) |- _ =>
      destruct (decide (Method (ctx h) = m)) as [<- | Hne];
        [| rewrite lookup_insert_ne in H by done] end.
    + exists (atPC (HUnlock (length (counters s))) h). split; [|reflexivity].
      apply list_elem_of_lookup. exists i. apply list_lookup_insert_eq.
      by eapply lookup_lt_Some.
    + eapply used_put; [exact Hi | reflexivity | eauto].
Qed.

Lemma panic_Inv s : Inv s -> Inv (panic s).
Proof. intros HI. destruct HI. by split. Qed.

Lemma stepHandler_add_Inv i s h a v :
  Inv s -> mainpc s <> MExit -> handlers s !! i = Some h ->
  hpc h = HCounterAdd a -> counters s !! a = Some v ->
  Inv (putHandler i (atPC HReturned h)
         (setCounters (<[a := Int64.Add v 1]> (counters s)) s)).
Proof.
  intros HI Hrun Hi Hpc Hv.
  pose proof (inv_handlers _ HI _ (proj2 (list_elem_of_lookup _ _) (ex_intro _ _ Hi))) as Hok.
  unfold handlerOk in Hok. rewrite Hpc in Hok. destruct Hok as [Hptr Hst].
  hsplit HI Hi; hgo Hi Hpc.
  - by rewrite length_insert.
  - destruct (decide (meth = Method (ctx h))) as [-> | Hne].
    + assert (a0 = a) as -> by congruence.
      rewrite list_lookup_insert_eq by (by eapply lookup_lt_Some).
      rewrite (I_count _ _ Hptr) in Hv. injection Hv as <-.
      rewrite Add_wrap.
      replace (countedMethod (Method (ctx h)) h) with 0
        by (unfold countedMethod; by rewrite Hpc).
      replace (countedMethod (Method (ctx h)) (atPC HReturned h)) with 1
        by (unfold countedMethod; cbn [hpc ctx atPC]; by rewrite decide_True).
      do 2 f_equal. lia.
    + assert (a0 <> a) as Hna by (intros ->; eauto).
      rewrite list_lookup_insert_ne by done.
      match goal with H : _ !! meth = Some a0 |- _ => rewrite (I_count _ _ H) end.
      replace (countedMethod meth h) with 0
        by (unfold countedMethod; by rewrite Hpc).
      replace (countedMethod meth (atPC HReturned h)) with 0
        by (unfold countedMethod; cbn [hpc ctx atPC]; by rewrite decide_False).
      do 2 f_equal. lia.
Qed.

Lemma stepHandler_select_Inv i s s' h :
  Inv s -> mainpc s <> MExit -> handlers s !! i = Some h -> hpc h = HSelect ->
  stepHandler i s = Some s' -> Inv s'.
Proof.
  intros HI Hrun Hi Hpc Hs. hstart HI Hi Hpc Hs Hok.
  destruct (0 <? len (Body (ctx h))) eqn:Hlen.
  2:{ injection Hs as <-. hsplit HI Hi; hgo Hi Hpc. }
  unfold trySend in Hs.
  destruct (closed (bodyQueue s)) eqn:Hcl.
  { injection Hs as <-. by apply panic_Inv. }
  destruct (recvq (bodyQueue s)) as [|w rest] eqn:Hq.
  - destruct (length (buf (bodyQueue s)) <? dataqsiz (bodyQueue s))%nat eqn:Hcap.
    + injection Hs as <-. hsplit HI Hi; hgo Hi Hpc.
      * rewrite sumZ_app. cbn [sumZ foldr]. unfold queuedLen at 2. cbn [body].
        weights Hpc. arith.
      * rewrite sumZ_app. cbn [sumZ foldr]. unfold queuedLen at 2. cbn [body].
        weights Hpc. arith.
      * rewrite length_app. simpl. bools. lia.
      * match goal with H : WParked ∈ _ |- _ =>
          apply list_elem_of_lookup in H as [j Hj] end.
        apply (I_parked Hcl) in Hj. rewrite Hq in Hj. by apply elem_of_nil in Hj.
      * match goal with H : WExited ∈ _ |- _ => apply I_exited in H as [? _] end.
        congruence.
    + injection Hs as <-. hsplit HI Hi; hgo Hi Hpc.
  - assert (Hw : workers s !! w = Some WParked).
    { apply (inv_recvq _ HI). rewrite Hq. by left. }
    injection Hs as <-. hsplit HI Hi; rewrite ?(sumZ_insert _ _ _ _ _ Hw); hgo Hi Hpc.
    + cbn [inHand body]. weights Hpc. arith.
    + cbn [inHand body]. weights Hpc. arith.
    + rewrite Hq in I_recvq_nodup. apply NoDup_cons in I_recvq_nodup as [Hnin _].
      assert (j <> w) by (intros ->; done).
      rewrite list_lookup_insert_ne by done. apply I_recvq. rewrite Hq. by right.
    + rewrite Hq in I_recvq_nodup. by apply NoDup_cons in I_recvq_nodup as [_ ?].
    + apply I_recvq_buf. by rewrite Hq.
    + match goal with H : <[_ := _]> _ !! _ = Some WParked |- _ =>
        apply list_lookup_insert_Some in H as [(_ & ? & _) | (Hne & Hj)]; [done|] end.
      apply (I_parked Hcl) in Hj. rewrite Hq in Hj.
      apply elem_of_cons in Hj as [-> | ?]; done.
    + apply I_recvq_buf. by rewrite Hq.
    + cbn [live]. lia.
    + match goal with H : WExited ∈ _ |- _ =>
        apply elem_of_insert_inv in H as [? | H]; [done|];
        apply I_exited in H as [? _] end.
      congruence.
Qed.

Lemma stepHandler_Inv i s s' :
  Inv s -> mainpc s <> MExit -> stepHandler i s = Some s' -> Inv s'.
Proof.
  intros HI Hrun Hs.
  destruct (handlers s !! i) as [h|] eqn:Hi;
    [|unfold stepHandler in Hs; by rewrite Hi in Hs].
  destruct (hpc h) eqn:Hpc;
    try (by eapply stepHandler_select_Inv);
    hstart HI Hi Hpc Hs Hok.
  - (* HSetStatus *)
    injection Hs as <-. hsplit HI Hi; hgo Hi Hpc.
  - (* HDump *)
    injection Hs as <-. hsplit HI Hi; hgo Hi Hpc.
  - (* HDropAdd *)
    injection Hs as <-. hsplit HI Hi; hgo Hi Hpc.
  - (* HTotalAdd *)
    injection Hs as <-. hsplit HI Hi; hgo Hi Hpc.
  - (* HRLock *)
    destruct (writer _) eqn:Hw; [done|].
    injection Hs as <-. hsplit HI Hi; hgo Hi Hpc.
  - (* HLookup *)
    destruct (methodCounts (metrics s) !! Method (ctx h)) as [a|] eqn:Hm;
      injection Hs as <-; hsplit HI Hi; hgo Hi Hpc.
  - (* HRUnlock *)
    pose proof (sumZ_lookup_le inReadSection _ _ _ inReadSection_nonneg Hi) as Hge.
    unfold inReadSection in Hge at 1. rewrite Hpc in Hge.
    destruct counter as [a|]; injection Hs as <-; hsplit HI Hi; hgo Hi Hpc.
  - (* HLock *)
    destruct (writer _ || _) eqn:Hw; [done|].
    injection Hs as <-. hsplit HI Hi; hgo Hi Hpc.
  - (* HRecheck *)
    destruct (methodCounts (metrics s) !! Method (ctx h)) as [a|] eqn:Hm;
      injection Hs as <-; hsplit HI Hi; hgo Hi Hpc.
  - (* HCreate *)
    injection Hs as <-. by apply stepHandler_create_Inv.
  - (* HUnlock *)
    pose proof (sumZ_lookup_le inWriteSection _ _ _ inWriteSection_nonneg Hi) as Hge.
    unfold inWriteSection in Hge at 1. rewrite Hpc in Hge.
    destruct (writer (methodCountsMux (metrics s))) eqn:Hw;
      [| rewrite (inv_writer _ HI), Hw in Hge; lia].
    injection Hs as <-. hsplit HI Hi; hgo Hi Hpc.
  - (* HCounterAdd *)
    destruct (counters s !! counter) as [v|] eqn:Hv; injection Hs as <-.
    + by apply stepHandler_add_Inv.
    + by apply panic_Inv.
  - (* HReturned *)
    done.
Qed.

Lemma live_nonneg w : 0 <= live w.
Proof. destruct w; simpl; lia. Qed.

Ltac wsplit HI Hj :=
  let HI' := fresh "HI'" in pose proof HI as HI';
  destruct HI' as [I_total I_dropped I_bytes I_consumed I_recvq I_recvq_nodup I_recvq_buf
                   I_cap I_closed_recvq I_parked I_parked_buf I_wg I_readers I_writer I_excl
                   I_handlers I_inj I_objects I_count I_used I_exited
                   I_closed I_display I_report];
  split; unfold callsOf in *; proj; intros; rewrite ?(sumZ_insert _ _ _ _ _ Hj);
  cbn [inHand live body sumZ foldr] in *;
  try assumption; try congruence; try (by eauto).

Ltac wmember :=
  repeat match goal with
  | H : _ ∈ <[_ := _]> _ |- _ => apply elem_of_insert_inv in H as [? | H]; [done|]
  end.

Ltac nil_member :=
  match goal with H : _ ∈ [] |- _ => by apply elem_of_nil in H end.

Lemma stepWorker_Inv j s s' :
  Inv s -> mainpc s <> MExit -> stepWorker j s = Some s' -> Inv s'.
Proof.
  intros HI Hrun Hs. unfold stepWorker in Hs.
  destruct (workers s !! j) as [w|] eqn:Hj; [|done].
  pose proof (sumZ_lookup_le live _ _ _ live_nonneg Hj) as Hlive.
  destruct w as [| |rb|].
  - (* WRecv *)
    destruct (buf (bodyQueue s)) as [|rb rest] eqn:Hbuf.
    + destruct (closed (bodyQueue s)) eqn:Hcl; injection Hs as <-.
      * wsplit HI Hj; try (timeout 10 (bools; arith); fail).
        -- rewrite (I_closed_recvq Hcl) in *. nil_member.
        -- match goal with H : _ \/ _ |- _ => by rewrite (I_display H) end.
      * assert (j ∉ recvq (bodyQueue s)) as Hnin.
        { intros Hin. apply (inv_recvq _ HI) in Hin. congruence. }
        wsplit HI Hj; try (timeout 10 (bools; arith); fail).
        -- match goal with H : _ ∈ (_ ++ _)%list |- _ =>
             apply elem_of_app in H as [H | H%list_elem_of_singleton] end.
           ++ rewrite list_lookup_insert_ne by (intros <-; done). by apply I_recvq.
           ++ subst. apply list_lookup_insert_eq. by eapply lookup_lt_Some.
        -- apply NoDup_app. split; [done|]. split; [|apply NoDup_singleton].
           intros x Hx Hx'%list_elem_of_singleton. by subst.
        -- apply elem_of_app.
           match goal with H : <[_ := _]> _ !! _ = Some WParked |- _ =>
             apply list_lookup_insert_Some in H as [(-> & _ & _) | (_ & H)] end.
           ++ right. by apply list_elem_of_singleton.
           ++ left. by apply (I_parked Hcl).
        -- wmember. match goal with H : WExited ∈ _ |- _ =>
             apply I_exited in H as [? _] end. congruence.
    + injection Hs as <-.
      assert (recvq (bodyQueue s) = []) as Hq.
      { destruct (recvq (bodyQueue s)) eqn:Hq; [done|].
        assert (buf (bodyQueue s) = []); [|congruence].
        apply (inv_recvq_buf _ HI). by rewrite Hq. }
      wsplit HI Hj; try (timeout 10 (bools; arith); fail).
      * rewrite I_bytes, Hbuf.
        change (sumZ queuedLen (rb :: rest))
          with (len (body rb) + sumZ queuedLen rest).
        f_equal. lia.
      * rewrite Hbuf in I_consumed.
        change (sumZ queuedLen (rb :: rest))
          with (len (body rb) + sumZ queuedLen rest) in I_consumed.
        lia.
      * rewrite Hq in *. nil_member.
      * rewrite Hbuf in I_cap. simpl in I_cap. lia.
      * match goal with H : <[_ := _]> _ !! _ = Some WParked |- _ =>
          apply list_lookup_insert_Some in H as [(_ & ? & _) | (_ & H)]; [done|];
          by apply I_parked end.
      * wmember. match goal with H : WParked ∈ _ |- _ =>
          apply I_parked_buf in H end. congruence.
      * wmember. match goal with H : WExited ∈ _ |- _ =>
          apply I_exited in H as [_ ?] end. congruence.
  - (* WParked *)
    destruct (closed (bodyQueue s)) eqn:Hcl; [|done]. injection Hs as <-.
    wsplit HI Hj; try (timeout 10 (bools; arith); fail).
    + rewrite (I_closed_recvq Hcl) in *. nil_member.
    + apply I_parked_buf. apply list_elem_of_lookup. eauto.
    + split; [done|]. apply I_parked_buf. apply list_elem_of_lookup. eauto.
    + match goal with H : _ \/ _ |- _ => by rewrite (I_display H) end.
  - (* WAdd *)
    injection Hs as <-.
    wsplit HI Hj; try (timeout 10 (bools; arith); fail).
    + unfold len in *. lia.
    + assert (j0 <> j).
      { intros ->. match goal with H : j ∈ _ |- _ => apply I_recvq in H end.
        congruence. }
      rewrite list_lookup_insert_ne by done. by apply I_recvq.
    + match goal with H : <[_ := _]> _ !! _ = Some WParked |- _ =>
        apply list_lookup_insert_Some in H as [(_ & ? & _) | (_ & H)]; [done|];
        by apply I_parked end.
    + wmember. by apply I_parked_buf.
    + wmember. by apply I_exited.
  - (* WExited *)
    done.
Qed.


Ltac msplit HI :=
  let HI' := fresh "HI'" in pose proof HI as HI';
  destruct HI' as [I_total I_dropped I_bytes I_consumed I_recvq I_recvq_nodup I_recvq_buf
                   I_cap I_closed_recvq I_parked I_parked_buf I_wg I_readers I_writer I_excl
                   I_handlers I_inj I_objects I_count I_used I_exited
                   I_closed I_display I_report];
  split; unfold callsOf in *; proj; intros;
  try assumption; try congruence; try (by eauto).

Ltac mfin Hpc :=
  rewrite ?Hpc in *;
  try (timeout 10 (intuition (try discriminate; try congruence)); fail).

Lemma stepMain_Inv e s s' :
  Inv s -> stepMain e s = Some s' -> Inv s'.
Proof.
  intros HI Hs. unfold stepMain in Hs.
  destruct (mainpc s) eqn:Hpc.
  - destruct (sigChan s); [|done]. injection Hs as <-.
    msplit HI; mfin Hpc.
  - destruct e as [err|].
    + injection Hs as <-. msplit HI; mfin Hpc.
    + destruct (forallb returned (handlers s)); [|done]. injection Hs as <-.
      msplit HI; mfin Hpc.
  - destruct (closed (bodyQueue s)) eqn:Hcl; injection Hs as <-.
    + by apply panic_Inv.
    + msplit HI; mfin Hpc.
      * match goal with H : _ ∈ [] |- _ => by apply elem_of_nil in H end.
      * constructor.
  - destruct (wg s =? 0)%nat eqn:Hwg; [|done]. injection Hs as <-.
    apply Nat.eqb_eq in Hwg.
    msplit HI; mfin Hpc.
  - destruct (writer (methodCountsMux (metrics s))); [done|]. injection Hs as <-.
    msplit HI; mfin Hpc.
  - done.
Qed.

Lemma accept_Inv r s :
  Inv s -> mainpc s <> MExit -> Inv (setHandlers (handlers s ++ [newHandler r]) s).
Proof.
  intros HI Hrun. msplit HI; rewrite ?sumZ_app; cbn [sumZ foldr];
    change (countedTotal (newHandler r)) with 0;
    change (countedDrop (newHandler r)) with 0;
    change (sentLen (newHandler r)) with 0;
    change (inReadSection (newHandler r)) with 0;
    change (inWriteSection (newHandler r)) with 0;
    rewrite ?Z.add_0_r; try assumption.
  - match goal with H : _ ∈ (_ ++ _)%list |- _ =>
      apply elem_of_app in H as [H | H%list_elem_of_singleton] end; [by apply I_handlers|].
    subst. unfold handlerOk. by cbn.
  - replace (countedMethod meth (newHandler r)) with 0 by done.
    rewrite ?Z.add_0_r. eauto.
  - match goal with H : is_Some _ |- _ => apply I_used in H as (h & Hin & Hm) end.
    exists h. split; [|done]. apply elem_of_app. by left.
Qed.

Lemma signal_Inv s : Inv s -> Inv (setSigChan true s).
Proof. intros HI. destruct HI. by split. Qed.

Lemma step_Inv a s s' : Inv s -> step a s = Some s' -> Inv s'.
Proof.
  intros HI Hs. unfold step in Hs.
  destruct (panicked s || exited (mainpc s)) eqn:Hrun; [done|].
  apply orb_false_iff in Hrun as [_ Hrun].
  assert (mainpc s <> MExit) as Hne by (intros Heq; by rewrite Heq in Hrun).
  destruct a as [|r|i|j|e].
  - injection Hs as <-. by apply signal_Inv.
  - destruct (serving s); [|done]. injection Hs as <-. by apply accept_Inv.
  - by eapply stepHandler_Inv.
  - by eapply stepWorker_Inv.
  - by eapply stepMain_Inv.
Qed.

Lemma run_Inv sched s s' : Inv s -> run sched s = Some s' -> Inv s'.
Proof.
  revert s. induction sched as [|a sched IH]; intros s HI Hr; simpl in Hr.
  - by injection Hr as <-.
  - destruct (step a s) as [s1|] eqn:Hs; [|done].
    eapply IH; [|exact Hr]. by eapply step_Inv.
Qed.

Lemma reachable_Inv cfg s : reachable cfg s -> Inv s.
Proof.
  intros (s0 & sched & Hb & Hr). eapply run_Inv; [|exact Hr]. by eapply boot_Inv.
Qed.



(** * The console dump *)

Lemma dumpBody_cases r :
  (0 < len (Body r) <= 1024 /\ dumpBody r = [Printf "Body:        %s\n" [AStr (Body r)]])
  \/ (1024 < len (Body r) /\
      dumpBody r = [Printf "Body:        [%d bytes - too large to display]\n" [AInt (len (Body r))]])
  \/ (len (Body r) = 0 /\ dumpBody r = []).
Proof.
  unfold dumpBody.
  assert (0 <= len (Body r)) by (unfold len; lia).
  destruct (Z.ltb_spec 0 (len (Body r))); destruct (Z.leb_spec (len (Body r)) 1024);
    destruct (Z.ltb_spec 1024 (len (Body r))); simpl; try lia; auto.
  right. right. split; [lia | done].
Qed.

Lemma In_dumpRequest o r :
  In o (dumpRequest r) ->
  In o (dumpBody r)
  \/ match o with
     | Printf "Body:        %s\n" _ => False
     | Printf "Body:        [%d bytes - too large to display]\n" _ => False
     | _ => True
     end.
Proof.
  unfold dumpRequest. rewrite !in_app_iff, in_map_iff.
  intros [H | [H | [H | [H | H]]]].
  - simpl in H. repeat (destruct H as [<- | H]; [by right|]). done.
  - destruct H as (kv & <- & _). by right.
  - destruct H as [<- | []]. by right.
  - by left.
  - destruct H as [<- | []]. by right.
Qed.

Lemma sprintf_ok :
  (forall b, sprintf "Body:        %s\n" [AStr b] = "Body:        " +:+ b +:+ LF) /\
  (sprintf "Body:        [%d bytes - too large to display]\n" [AInt 2000]
   = "Body:        [2000 bytes - too large to display]" +:+ LF).
Proof. split; [intros b|]; reflexivity. Qed.

Lemma In_dumpBody_dumpRequest o r : In o (dumpBody r) -> In o (dumpRequest r).
Proof. intros H. unfold dumpRequest. rewrite !in_app_iff. tauto. Qed.

Lemma In_body_line r :
  In (Printf "Body:        %s\n" [AStr (Body r)]) (dumpRequest r)
  <-> 0 < len (Body r) <= 1024.
Proof.
  split.
  - intros H. apply In_dumpRequest in H as [H | []].
    destruct (dumpBody_cases r) as [[Hlen Hb] | [[Hlen Hb] | [Hlen Hb]]];
      rewrite Hb in H; simpl in H; [done | | done].
    destruct H as [H | []]. discriminate.
  - intros Hlen. apply In_dumpBody_dumpRequest.
    destruct (dumpBody_cases r) as [[_ Hb] | [[? _] | [? _]]]; [|lia..].
    rewrite Hb. by left.
Qed.

Lemma In_placeholder_line r :
  In (Printf "Body:        [%d bytes - too large to display]\n"
        [AInt (len (Body r))]) (dumpRequest r)
  <-> 1024 < len (Body r).
Proof.
  split.
  - intros H. apply In_dumpRequest in H as [H | []].
    destruct (dumpBody_cases r) as [[Hlen Hb] | [[Hlen Hb] | [Hlen Hb]]];
      rewrite Hb in H; simpl in H; [ | done | done].
    destruct H as [H | []]. discriminate.
  - intros Hlen. apply In_dumpBody_dumpRequest.
    destruct (dumpBody_cases r) as [[? _] | [[_ Hb] | [? _]]]; [lia | | lia].
    rewrite Hb. by left.
Qed.

Definition post (path body : string) : Request :=
  {| Method := "POST"; Path := path; RemoteAddr := "127.0.0.1:40000";
     Header := [("Content-Type", "text/plain")]; Body := body |}.

(** C6. For a request whose path contains "dump", the dump holds the raw
    body exactly when the body has between 1 and 1024 bytes, and the
    placeholder with the body length exactly when it has more than 1024
    bytes; a 2000-byte body gives the line
    "Body:        [2000 bytes - too large to display]" and a 500-byte
    body the line with the body text. *)
Theorem dump_body_display (r : Request) :
  Contains (Path r) "dump" = true ->
  (In (Printf "Body:        %s\n" [AStr (Body r)]) (handlerOutput r)
   <-> 0 < len (Body r) <= 1024)
  /\ (In (Printf "Body:        [%d bytes - too large to display]\n"
            [AInt (len (Body r))]) (handlerOutput r)
      <-> 1024 < len (Body r))
  /\ (len (Body r) = 2000 ->
      map render (dumpBody r)
      = ["Body:        [2000 bytes - too large to display]" +:+ LF])
  /\ (len (Body r) = 500 ->
      map render (dumpBody r) = ["Body:        " +:+ Body r +:+ LF])
  /\ exists pre post, handlerOutput r = (pre ++ dumpBody r ++ post)%list.
Proof.
  intros Hdump. unfold handlerOutput. rewrite Hdump.
  split; [apply In_body_line|]. split; [apply In_placeholder_line|].
  split; [|split].
  - intros Hlen.
    destruct (dumpBody_cases r) as [[? _] | [[_ Hb] | [? _]]]; [lia | | lia].
    rewrite Hb, Hlen. reflexivity.
  - intros Hlen.
    destruct (dumpBody_cases r) as [[_ Hb] | [[? _] | [? _]]]; [|lia..].
    rewrite Hb. reflexivity.
  - unfold dumpRequest. eexists _, [_]. rewrite !app_assoc. reflexivity.
Qed.

Lemma dump_body_display_witness :
  map render (dumpBody (post "/dump" (Repeat "x" 2000)))
  = ["Body:        [2000 bytes - too large to display]" +:+ LF].
Proof.
  apply (dump_body_display (post "/dump" (Repeat "x" 2000))); reflexivity.
Defined.

(** * The final report *)

(** Where a record of the report can come from, by its format. *)
Lemma In_displayMetrics o m heap :
  In o (displayMetrics m heap) ->
  In o (displayAverage (totalBodySize m) (totalRequests m))
  \/ In o (displayDropped (droppedBodies m) (totalRequests m))
  \/ match o with
     | Printf "Average Body Size:  %.2f KB\n" _ => False
     | Printf "Average Body Size:  0 KB (no request bodies)\n" _ => False
     | Printf "Dropped Bodies:     %d" _ => False
     | Printf " (%.2f%% of requests)" _ => False
     | _ => True
     end.
Proof.
  unfold displayMetrics. rewrite !in_app_iff, in_map_iff.
  intros [H | [H | [H | [H | [H | H]]]]]; auto.
  - simpl in H. repeat (destruct H as [<- | H]; [by right; right|]). done.
  - destruct H as [<- | []]. by right; right.
  - destruct H as (kv & <- & _). by right; right.
  - destruct H as [<- | []]. by right; right.
Qed.

Lemma In_average_sub o m heap :
  In o (displayAverage (totalBodySize m) (totalRequests m)) ->
  In o (displayMetrics m heap).
Proof. intros H. unfold displayMetrics. rewrite !in_app_iff. tauto. Qed.

Lemma In_dropped_sub o m heap :
  In o (displayDropped (droppedBodies m) (totalRequests m)) ->
  In o (displayMetrics m heap).
Proof. intros H. unfold displayMetrics. rewrite !in_app_iff. tauto. Qed.

Lemma fvalue_percentOf count total :
  total <> 0 ->
  fvalue (percentOf count total)
  = Some (inject_Z count / inject_Z total * inject_Z 100)%Q.
Proof.
  intros Hne. simpl.
  destruct (Qeq_bool (inject_Z total) 0) eqn:Hz; [|done].
  apply Qeq_bool_iff in Hz. unfold Qeq in Hz. simpl in Hz. lia.
Qed.

Lemma fvalue_average bytes total :
  total <> 0 ->
  fvalue (FDiv (FDiv (FInt bytes) (FInt total)) (FConst 1024))
  = Some (inject_Z bytes / inject_Z total / inject_Z 1024)%Q.
Proof.
  intros Hne. simpl.
  destruct (Qeq_bool (inject_Z total) 0) eqn:Hz.
  - apply Qeq_bool_iff in Hz. unfold Qeq in Hz. simpl in Hz. lia.
  - reflexivity.
Qed.

(** C9. The final report always prints the dropped-body count; it prints
    the percentage, computed as droppedBodies / totalRequests * 100 and
    formatted with two decimals, exactly when droppedBodies > 0; it prints
    the average body size, computed as totalBodySize / totalRequests / 1024
    and formatted with two decimals, exactly when totalBodySize > 0, and
    the zero-case message otherwise (in particular when totalBodySize is
    0). *)
Theorem report_dropped_and_average (m : Metrics) (heap : list Z) :
  let totalReqs := totalRequests m in
  let totalBodySz := totalBodySize m in
  let drops := droppedBodies m in
  let report := displayMetrics m heap in
  In (Printf "Dropped Bodies:     %d" [AInt drops]) report
  /\ (forall args,
        In (Printf " (%.2f%% of requests)" args) report
        <-> 0 < drops
            /\ args = [AFloat (FMul (FDiv (FInt drops) (FInt totalReqs)) (FConst 100))])
  /\ (forall args,
        In (Printf "Average Body Size:  %.2f KB\n" args) report
        <-> 0 < totalBodySz
            /\ args = [AFloat (FDiv (FDiv (FInt totalBodySz) (FInt totalReqs))
                                    (FConst 1024))])
  /\ (In (Printf "Average Body Size:  0 KB (no request bodies)\n" []) report
      <-> ~ 0 < totalBodySz)
  /\ (totalBodySz = 0 ->
      In (Printf "Average Body Size:  0 KB (no request bodies)\n" []) report)
  /\ (totalReqs <> 0 ->
      fvalue (FMul (FDiv (FInt drops) (FInt totalReqs)) (FConst 100))
      = Some (inject_Z drops / inject_Z totalReqs * inject_Z 100)%Q
      /\ fvalue (FDiv (FDiv (FInt totalBodySz) (FInt totalReqs)) (FConst 1024))
         = Some (inject_Z totalBodySz / inject_Z totalReqs / inject_Z 1024)%Q).
Proof.
  cbv zeta.
  assert (Havg : forall o,
    In o (displayAverage (totalBodySize m) (totalRequests m)) <->
    if 0 <? totalBodySize m
    then o = Printf "Average Body Size:  %.2f KB\n"
               [AFloat (FDiv (FDiv (FInt (totalBodySize m)) (FInt (totalRequests m)))
                             (FConst 1024))]
    else o = Printf "Average Body Size:  0 KB (no request bodies)\n" []).
  { intros o. unfold displayAverage. destruct (0 <? totalBodySize m); simpl;
      split; intros H; try destruct H as [H | []]; auto. }
  assert (Hdrop : forall o,
    In o (displayDropped (droppedBodies m) (totalRequests m)) <->
    o = Printf "Dropped Bodies:     %d" [AInt (droppedBodies m)]
    \/ o = Println ""
    \/ (0 < droppedBodies m /\
        o = Printf " (%.2f%% of requests)"
              [AFloat (percentOf (droppedBodies m) (totalRequests m))])).
  { intros o. unfold displayDropped.
    destruct (Z.ltb_spec 0 (droppedBodies m)); simpl;
      (split; intros Hin; intuition (subst; auto; try lia)). }
  split; [|split; [|split; [|split; [|split]]]].
  - apply In_dropped_sub, Hdrop. by left.
  - intros args. split.
    + intros H. apply In_displayMetrics in H as [H | [H | []]].
      * apply Havg in H. destruct (0 <? totalBodySize m); discriminate.
      * apply Hdrop in H as [H | [H | [Hpos H]]]; try discriminate.
        injection H as ->. done.
    + intros [Hpos ->]. apply In_dropped_sub, Hdrop. right. right. done.
  - intros args. split.
    + intros H. apply In_displayMetrics in H as [H | [H | []]].
      * apply Havg in H. destruct (Z.ltb_spec 0 (totalBodySize m)); [|discriminate].
        injection H as ->. done.
      * apply Hdrop in H as [H | [H | [_ H]]]; discriminate.
    + intros [Hpos ->]. apply In_average_sub, Havg.
      apply Z.ltb_lt in Hpos. by rewrite Hpos.
  - split.
    + intros H. apply In_displayMetrics in H as [H | [H | []]].
      * apply Havg in H. destruct (Z.ltb_spec 0 (totalBodySize m)); [discriminate | lia].
      * apply Hdrop in H as [H | [H | [_ H]]]; discriminate.
    + intros Hn. apply In_average_sub, Havg.
      destruct (Z.ltb_spec 0 (totalBodySize m)); [done | reflexivity].
  - intros H0. apply In_average_sub, Havg. by rewrite H0.
  - intros Hne. split; [by apply fvalue_percentOf | by apply fvalue_average].
Qed.

Definition sampleMetrics : Metrics :=
  {| totalRequests := 4; totalBodySize := 8192; droppedBodies := 1;
     methodCounts := ∅;
     methodCountsMux := {| readers := 0; writer := false |} |}.

Lemma report_dropped_and_average_witness :
  In (Printf " (%.2f%% of requests)"
        [AFloat (FMul (FDiv (FInt 1) (FInt 4)) (FConst 100))])
     (displayMetrics sampleMetrics [])
  /\ fvalue (FMul (FDiv (FInt 1) (FInt 4)) (FConst 100)) = Some (1 / 4 * 100)%Q.
Proof.
  destruct (report_dropped_and_average sampleMetrics []) as (_ & Hpct & _ & _ & _ & Hval).
  split.
  - apply Hpct. split; [reflexivity | reflexivity].
  - apply Hval. discriminate.
Defined.

(** * Sample runs *)

(** Boots the program and runs a schedule. *)
Definition exec (cfg : Config) (sched : list action) : option State :=
  match boot cfg with
  | Some s0 => run sched s0
  | None => None
  end.

Lemma exec_reachable cfg sched s : exec cfg sched = Some s -> reachable cfg s.
Proof.
  unfold exec, reachable. destruct (boot cfg) as [s0|] eqn:Hb; [|done].
  intros Hr. by exists s0, sched.
Qed.

Definition sampleConfig : Config := {| workersFlag := 1; queueSizeFlag := 2 |}.

Definition get (path : string) : Request :=
  {| Method := "GET"; Path := path; RemoteAddr := "127.0.0.1:40001";
     Header := []; Body := "" |}.

(** One POST with a 5-byte body and one GET, each handled to its end,
    and the worker consuming the body. *)
Definition sampleSchedule : list action :=
  Accept (post "/api" "hello") :: replicate 12 (StepHandler 0)
  ++ StepWorker 0 :: StepWorker 0
  :: Accept (get "/health") :: replicate 12 (StepHandler 1).

Definition sampleState : State :=
  Eval vm_compute in
    match exec sampleConfig sampleSchedule with
    | Some s => s
    | None => panic (setHandlers [] (setWorkers [] (setCounters []
                (setSigChan false (setWg 0 (setMainpc MExit
                  {| metrics := sampleMetrics; counters := []; bodyQueue := {| buf := []; dataqsiz := 0; recvq := []; closed := true |};
                     handlers := []; workers := []; wg := 0; mainpc := MExit; sigChan := false; serving := false; console := []; panicked := true |}))))))
    end.

Lemma sampleState_reachable : reachable sampleConfig sampleState.
Proof. apply (exec_reachable _ sampleSchedule). vm_compute. reflexivity. Qed.

(** ** Quiescent and drained states *)

Lemma quiescentb_ok s :
  forallb returned (handlers s) = true -> quiescent s.
Proof.
  intros H h Hin. rewrite forallb_forall in H.
  apply list_elem_of_In, H in Hin. unfold returned in Hin.
  by destruct (hpc h).
Qed.

Lemma drainedb_ok s :
  buf (bodyQueue s) = [] -> forallb (fun w => negb (holding w)) (workers s) = true ->
  drained s.
Proof.
  intros Hb H. split; [done|]. intros w Hin. rewrite forallb_forall in H.
  apply list_elem_of_In, H in Hin. by apply negb_true_iff.
Qed.

Lemma bodyLen_nonneg h : 0 <= bodyLen h.
Proof. unfold bodyLen, len. lia. Qed.

Lemma sentLen_nonneg h : 0 <= sentLen h.
Proof. unfold sentLen. pose proof (bodyLen_nonneg h). destruct (sent h); lia. Qed.

Lemma quiescent_countedTotal s :
  quiescent s -> sumZ countedTotal (handlers s) = Z.of_nat (length (handlers s)).
Proof.
  intros Hq. apply sumZ_length. intros h Hin. unfold countedTotal.
  by rewrite (Hq h Hin).
Qed.

Lemma drained_nothing_pending s :
  drained s ->
  sumZ queuedLen (buf (bodyQueue s)) = 0 /\ sumZ inHand (workers s) = 0.
Proof.
  intros [Hb Hw]. rewrite Hb. split; [done|].
  apply sumZ_zero. intros w Hin. specialize (Hw w Hin). by destruct w.
Qed.

(** After its [select], a handler's body was either sent or dropped. *)
Lemma returned_sent_or_dropped mc h :
  handlerOk mc h -> hpc h = HReturned -> sentLen h + droppedLen h = bodyLen h.
Proof.
  unfold handlerOk. intros [_ Hb] Hpc. rewrite Hpc in Hb. destruct Hb as [_ Hb].
  unfold sentLen, droppedLen, sent, dropped.
  pose proof (bodyLen_nonneg h).
  destruct (Z.ltb_spec 0 (bodyLen h)).
  - destruct Hb as [b Hb]. rewrite Hb. destruct b; lia.
  - rewrite Hb. lia.
Qed.

Lemma quiescent_sent_dropped s :
  Inv s -> quiescent s ->
  sumZ sentLen (handlers s) = sumZ bodyLen (handlers s) - sumZ droppedLen (handlers s).
Proof.
  intros HI Hq.
  assert (forall l : list Handler,
            (forall h, h ∈ l -> sentLen h + droppedLen h = bodyLen h) ->
            sumZ sentLen l = sumZ bodyLen l - sumZ droppedLen l) as Hgen.
  { induction l as [|h l IH]; intros Hl; simpl; [done|].
    rewrite IH by (intros x Hx; apply Hl; by right).
    specialize (Hl h ltac:(by left)). lia. }
  apply Hgen. intros h Hin.
  eapply returned_sent_or_dropped; [by apply (inv_handlers _ HI) | by apply Hq].
Qed.

Lemma quiescent_countedDrop s :
  quiescent s ->
  sumZ countedDrop (handlers s)
  = sumZ (fun h => if dropped h then 1 else 0) (handlers s).
Proof.
  intros Hq. apply sumZ_ext. intros h Hin. unfold countedDrop.
  by rewrite (Hq h Hin).
Qed.

(** C1. After N requests with non-empty bodies, none of which found the
    queue saturated, once every handler has returned and the workers have
    drained the queue: totalRequests is N, totalBodySize is the sum of the
    body lengths and droppedBodies is 0 (for totals that fit the 64-bit
    counters). *)
Theorem unsaturated_totals (cfg : Config) (s : State) :
  reachable cfg s -> quiescent s -> drained s ->
  (forall h, h ∈ handlers s -> 0 < bodyLen h) ->
  (forall h, h ∈ handlers s -> dropped h = false) ->
  Int64.in_range (Z.of_nat (length (handlers s))) ->
  Int64.in_range (sumZ bodyLen (handlers s)) ->
  totalRequests (metrics s) = Z.of_nat (length (handlers s))
  /\ totalBodySize (metrics s) = sumZ bodyLen (handlers s)
  /\ droppedBodies (metrics s) = 0.
Proof.
  intros Hr Hq Hd Hne Hnd HrN Hrb.
  pose proof (reachable_Inv _ _ Hr) as HI.
  destruct (drained_nothing_pending _ Hd) as [Hbuf Hhand].
  assert (sumZ droppedLen (handlers s) = 0) as Hdl.
  { apply sumZ_zero. intros h Hin. unfold droppedLen. by rewrite (Hnd h Hin). }
  split; [|split].
  - rewrite (inv_total _ HI), quiescent_countedTotal by done. by apply wrap_small.
  - rewrite (inv_bytes _ HI), Hbuf, Hhand, quiescent_sent_dropped, Hdl by done.
    rewrite !Z.sub_0_r. by apply wrap_small.
  - rewrite (inv_dropped _ HI), quiescent_countedDrop by done.
    rewrite sumZ_zero; [done|]. intros h Hin. by rewrite (Hnd h Hin).
Qed.

(** The [select] of a handler with a non-empty body, on an open queue. *)
Lemma trySend_full rb s :
  Inv s -> closed (bodyQueue s) = false ->
  if full (bodyQueue s)
  then trySend rb (bodyQueue s) (workers s) = SendDefault
  else (recvq (bodyQueue s) = [] /\
        trySend rb (bodyQueue s) (workers s)
        = SendOk (setBuf (buf (bodyQueue s) ++ [rb]) (bodyQueue s)) (workers s))
       \/ (exists w rest,
             recvq (bodyQueue s) = w :: rest /\ workers s !! w = Some WParked /\
             trySend rb (bodyQueue s) (workers s)
             = SendOk (setRecvq rest (bodyQueue s)) (<[w := WAdd rb]> (workers s))).
Proof.
  intros HI Hcl. unfold full, trySend. rewrite Hcl.
  pose proof (inv_cap _ HI) as Hcap. pose proof (inv_recvq_buf _ HI) as Hrb.
  pose proof (inv_recvq _ HI) as Hrq.
  destruct (recvq (bodyQueue s)) as [|w rest] eqn:Hq.
  - destruct (dataqsiz (bodyQueue s)) as [|n] eqn:Hn.
    + assert (length (buf (bodyQueue s)) = 0)%nat as -> by lia. done.
    + destruct (Nat.eqb_spec (length (buf (bodyQueue s))) (S n)) as [-> | Hne].
      * by rewrite Nat.ltb_irrefl.
      * left. split; [done|].
        destruct (Nat.ltb_spec (length (buf (bodyQueue s))) (S n)); [done | lia].
  - assert (buf (bodyQueue s) = []) as Hb by (by apply Hrb).
    assert (workers s !! w = Some WParked) as Hw by (apply Hrq; by left).
    rewrite Hb. destruct (dataqsiz (bodyQueue s)) as [|n]; simpl.
    + right. by exists w, rest.
    + right. by exists w, rest.
Qed.

Lemma dropped_le_one h : 0 <= (if dropped h then 1 else 0) <= 1.
Proof. destruct (dropped h); lia. Qed.

Lemma droppedLen_bounds h : 0 <= droppedLen h <= bodyLen h.
Proof.
  unfold droppedLen. pose proof (bodyLen_nonneg h). destruct (dropped h); lia.
Qed.

(** What C3 promises of the push of the handler at index [i]: a queue
    that is not full accepts the item (it is appended to the buffer, or
    handed to a worker parked in its receive) and droppedBodies is
    unchanged; a full queue discards it and the handler's next statement
    adds exactly one to droppedBodies. *)
Definition pushOutcome (s : State) (i : nat) (h : Handler) : Prop :=
  let rb := {| body := Body (ctx h); method := Method (ctx h) |} in
  exists s',
    stepHandler i s = Some s' /\
    if full (bodyQueue s)
    then bodyQueue s' = bodyQueue s /\ workers s' = workers s
         /\ metrics s' = metrics s
         /\ exists s'',
              stepHandler i s' = Some s''
              /\ droppedBodies (metrics s'')
                 = Int64.Add (droppedBodies (metrics s)) 1
              /\ totalBodySize (metrics s'') = totalBodySize (metrics s)
              /\ bodyQueue s'' = bodyQueue s /\ workers s'' = workers s
    else metrics s' = metrics s
         /\ handlers s' !! i = Some (took SentCase (atPC HTotalAdd h))
         /\ ((buf (bodyQueue s') = (buf (bodyQueue s) ++ [rb])%list
              /\ workers s' = workers s)
             \/ (exists w,
                   workers s !! w = Some WParked
                   /\ workers s' = <[w := WAdd rb]> (workers s)
                   /\ buf (bodyQueue s') = buf (bodyQueue s))).

(** C3 (amended). While the queue is open, a handler with a non-empty
    body makes one non-blocking push: when the queue is not full the item
    is accepted (appended to the buffer, or handed to a worker parked in
    its receive) and droppedBodies is unchanged; when the queue is full
    the item is discarded and the handler's next statement adds exactly
    one to droppedBodies.  Once every handler has returned and the queue
    is drained, droppedBodies is the number of rejected pushes and
    totalBodySize is the sum of all body lengths less the lengths of the
    dropped bodies. *)
Theorem push_or_drop (cfg : Config) (s : State) :
  reachable cfg s ->
  (forall i h,
     handlers s !! i = Some h -> hpc h = HSelect -> 0 < bodyLen h ->
     closed (bodyQueue s) = false ->
     pushOutcome s i h)
  /\ (quiescent s -> drained s ->
      Int64.in_range (sumZ bodyLen (handlers s)) ->
      Int64.in_range (Z.of_nat (length (handlers s))) ->
      droppedBodies (metrics s)
      = sumZ (fun h => if dropped h then 1 else 0) (handlers s)
      /\ totalBodySize (metrics s)
         = sumZ bodyLen (handlers s) - sumZ droppedLen (handlers s)).
Proof.
  intros Hr. pose proof (reachable_Inv _ _ Hr) as HI. split.
  - intros i h Hi Hpc Hlen Hcl. unfold pushOutcome.
    set (rb := {| body := Body (ctx h); method := Method (ctx h) |}).
    pose proof (trySend_full rb s HI Hcl) as Hsend.
    assert (i < length (handlers s))%nat as Hlt by (by eapply lookup_lt_Some).
    unfold stepHandler. rewrite Hi, Hpc. cbn zeta.
    apply Z.ltb_lt in Hlen. unfold bodyLen in Hlen. rewrite Hlen. fold rb.
    destruct (full (bodyQueue s)).
    + rewrite Hsend. eexists. split; [reflexivity|].
      split; [done|]. split; [done|]. split; [done|].
      cbn [handlers putHandler setHandlers].
      rewrite list_lookup_insert_eq by done. cbn [hpc took atPC].
      eexists. split; [reflexivity|]. by cbn.
    + destruct Hsend as [[Hq Hsend] | (w & rest & Hq & Hw & Hsend)]; rewrite Hsend.
      * eexists. split; [reflexivity|]. split; [done|].
        cbn [handlers putHandler setHandlers setWorkers setBodyQueue].
        rewrite list_lookup_insert_eq by done. split; [done|]. left. by cbn.
      * eexists. split; [reflexivity|]. split; [done|].
        cbn [handlers putHandler setHandlers setWorkers setBodyQueue].
        rewrite list_lookup_insert_eq by done. split; [done|]. right.
        exists w. by cbn.
  - intros Hq Hd Hrb HrN.
    destruct (drained_nothing_pending _ Hd) as [Hbuf Hhand]. split.
    + rewrite (inv_dropped _ HI), quiescent_countedDrop by done.
      apply wrap_small. eapply in_range_nonneg_le; [|exact HrN]. split.
      * apply sumZ_nonneg. intros h. apply dropped_le_one.
      * rewrite <- (sumZ_length (fun _ : Handler => 1) (handlers s)) by done.
        apply sumZ_le. intros h _. apply dropped_le_one.
    + rewrite (inv_bytes _ HI), Hbuf, Hhand, !Z.sub_0_r.
      rewrite quiescent_sent_dropped by done. apply wrap_small.
      eapply in_range_nonneg_le; [|exact Hrb]. split.
      * assert (sumZ droppedLen (handlers s) <= sumZ bodyLen (handlers s)).
        { apply sumZ_le. intros h _. apply droppedLen_bounds. }
        lia.
      * assert (0 <= sumZ droppedLen (handlers s)).
        { apply sumZ_nonneg. intros h. apply droppedLen_bounds. }
        lia.
Qed.

(** Two POSTs with 5-byte bodies, handled one after the other, and the
    worker consuming both bodies. *)
Definition postsSchedule : list action :=
  Accept (post "/a" "hello") :: replicate 12 (StepHandler 0)
  ++ Accept (post "/b" "world") :: replicate 8 (StepHandler 1)
  ++ replicate 4 (StepWorker 0).

Definition postsState : State :=
  Eval vm_compute in default sampleState (exec sampleConfig postsSchedule).

Lemma postsState_reachable : reachable sampleConfig postsState.
Proof. apply (exec_reachable _ postsSchedule). vm_compute. reflexivity. Qed.

Ltac each_handler :=
  let h := fresh "h" in let Hin := fresh "Hin" in
  intros h Hin; apply list_elem_of_In in Hin; simpl in Hin;
  repeat (destruct Hin as [<- | Hin]; [reflexivity|]); destruct Hin.

Ltac small_range :=
  unfold Int64.in_range, Int64.min_int, Int64.max_int; vm_compute; split; discriminate.

Lemma unsaturated_totals_witness :
  totalRequests (metrics postsState) = 2
  /\ totalBodySize (metrics postsState) = 10
  /\ droppedBodies (metrics postsState) = 0.
Proof.
  apply (unsaturated_totals sampleConfig postsState).
  - apply postsState_reachable.
  - apply quiescentb_ok. reflexivity.
  - apply drainedb_ok; reflexivity.
  - each_handler.
  - each_handler.
  - small_range.
  - small_range.
Defined.

Lemma push_or_drop_witness :
  droppedBodies (metrics sampleState) = 0
  /\ totalBodySize (metrics sampleState) = 5.
Proof.
  destruct (push_or_drop sampleConfig sampleState sampleState_reachable) as [_ H].
  apply H.
  - apply quiescentb_ok. reflexivity.
  - apply drainedb_ok; reflexivity.
  - small_range.
  - small_range.
Defined.

(** [server.Shutdown] returns an error while a handler is about to push:
    [main] logs the error and closes the queue. *)
Definition abortedSchedule : list action :=
  [Accept (post "/a" "hello"); StepHandler 0; StepHandler 0; Signal;
   StepMain None; StepMain (Some "listener close failed"); StepMain None].

Definition abortedState : State :=
  Eval vm_compute in default sampleState (exec sampleConfig abortedSchedule).

Lemma abortedState_reachable : reachable sampleConfig abortedState.
Proof. apply (exec_reachable _ abortedSchedule). vm_compute. reflexivity. Qed.

(** C3 as stated, for every request, fails: in a reachable state the
    queue is closed and empty (so it has free capacity), a handler with
    a 5-byte body is at its push, and the push neither enqueues the body
    nor counts it as dropped; the send on the closed channel panics. *)
Lemma push_or_drop_counterexample :
  reachable sampleConfig abortedState
  /\ exists h,
       handlers abortedState !! 0%nat = Some h
       /\ hpc h = HSelect /\ 0 < bodyLen h
       /\ full (bodyQueue abortedState) = false
       /\ closed (bodyQueue abortedState) = true
       /\ ~ pushOutcome abortedState 0 h
       /\ stepHandler 0 abortedState = Some (panic abortedState)
       /\ droppedBodies (metrics (panic abortedState)) = 0
       /\ buf (bodyQueue (panic abortedState)) = [].
Proof.
  split; [apply abortedState_reachable|].
  exists (default (newHandler (post "/a" "hello")) (handlers abortedState !! 0%nat)).
  split; [reflexivity|]. split; [reflexivity|]. split; [reflexivity|].
  split; [reflexivity|]. split; [reflexivity|]. split; [|by repeat split].
  intros (s' & Hs & Hout).
  change (stepHandler 0 abortedState) with (Some (panic abortedState)) in Hs.
  injection Hs as <-.
  change (full (bodyQueue abortedState)) with false in Hout.
  destruct Hout as (_ & Hh & _). vm_compute in Hh. discriminate Hh.
Qed.

(** The reply.  [requestHandler] has no statement that writes to the
    connection: it records the status code in [ctx] and returns, and the
    server it is registered with ([Handler: requestHandler]) writes the
    response of a request once its handler has returned. *)
Definition responseSent (h : Handler) : bool := returned h.

(** What C8 promises of a request: when its push has been attempted or
    one of its counter updates made, its response has been sent. *)
Definition repliedFirst (h : Handler) : Prop :=
  is_Some (branch h) \/ countedTotal h = 1
  \/ countedMethod (Method (ctx h)) h = 1 ->
  responseSent h = true.

(** C8 (amended). In every request the handler's first statement sets
    the response status to 200, and it does so without touching the
    metrics or the queue: a handler that has attempted its push, or has
    updated droppedBodies, totalRequests or its method counter, had its
    response status set before.  The response itself is sent only after
    the handler has returned, hence after its push attempt and its
    counter updates. *)
Theorem status_before_metrics (cfg : Config) (s : State) (h : Handler) :
  reachable cfg s -> h ∈ handlers s ->
  (hpc h <> HSetStatus -> statusCode h = Some 200)
  /\ (statusCode h <> Some 200 ->
      hpc h = HSetStatus /\ branch h = None /\ countedDrop h = 0
      /\ countedTotal h = 0 /\ forall meth, countedMethod meth h = 0)
  /\ (hpc h = HSetStatus ->
      forall i, handlers s !! i = Some h ->
        stepHandler i s = Some (putHandler i (withStatus 200 (atPC HDump h)) s))
  /\ (responseSent h = true ->
      statusCode h = Some 200 /\ countedTotal h = 1
      /\ countedMethod (Method (ctx h)) h = 1
      /\ (0 < bodyLen h -> is_Some (branch h))
      /\ (dropped h = true -> countedDrop h = 1)).
Proof.
  intros Hr Hin. pose proof (reachable_Inv _ _ Hr) as HI.
  pose proof (inv_handlers _ HI h Hin) as [_ Hok].
  split; [|split; [|split]].
  - intros Hne. destruct (hpc h); try done; by destruct Hok.
  - intros Hst.
    destruct (hpc h) eqn:Hpc; try (by destruct Hok).
    destruct Hok as [_ Hb].
    unfold countedDrop, countedTotal, countedMethod, dropped.
    rewrite Hpc, Hb. done.
  - intros Hpc i Hi. unfold stepHandler. by rewrite Hi, Hpc.
  - unfold responseSent, returned. intros Hret.
    destruct (hpc h) eqn:Hpc; try done. destruct Hok as [Hst Hb].
    unfold countedTotal, countedMethod, countedDrop. rewrite Hpc.
    split; [done|]. split; [done|]. split; [by rewrite decide_True|].
    split.
    + intros Hlen. apply Z.ltb_lt in Hlen. by rewrite Hlen in Hb.
    + by intros ->.
Qed.

Definition sampleHandler : Handler :=
  {| ctx := post "/api" "hello"; statusCode := Some 200; hpc := HReturned;
     branch := Some SentCase |}.

Lemma status_before_metrics_witness : statusCode sampleHandler = Some 200.
Proof.
  destruct (status_before_metrics sampleConfig sampleState sampleHandler)
    as (H & _).
  - apply sampleState_reachable.
  - apply list_elem_of_In. left. reflexivity.
  - apply H. discriminate.
Defined.

(** A handler holds the write lock while a second one waits at
    [RLock]. *)
Definition contendedSchedule : list action :=
  Accept (post "/a" "hello") :: replicate 8 (StepHandler 0)
  ++ Accept (get "/health") :: replicate 4 (StepHandler 1).

Definition contendedState : State :=
  Eval vm_compute in default sampleState (exec sampleConfig contendedSchedule).

Lemma contendedState_reachable : reachable sampleConfig contendedState.
Proof. apply (exec_reachable _ contendedSchedule). vm_compute. reflexivity. Qed.

(** C8 as stated fails: in a reachable state the first request has
    pushed its body and added to totalRequests, the second has added to
    totalRequests and waits for the lock the first one holds, and
    neither response has been sent. *)
Lemma status_before_metrics_counterexample :
  reachable sampleConfig contendedState
  /\ (exists h,
        handlers contendedState !! 0%nat = Some h
        /\ sent h = true /\ countedTotal h = 1
        /\ responseSent h = false /\ ~ repliedFirst h)
  /\ (exists h,
        handlers contendedState !! 1%nat = Some h
        /\ countedTotal h = 1
        /\ responseSent h = false /\ ~ repliedFirst h
        /\ stepHandler 1 contendedState = None).
Proof.
  split; [apply contendedState_reachable|]. split.
  - exists (default sampleHandler (handlers contendedState !! 0%nat)).
    split; [reflexivity|]. split; [reflexivity|]. split; [reflexivity|].
    split; [reflexivity|]. intros H. by specialize (H ltac:(right; left; reflexivity)).
  - exists (default sampleHandler (handlers contendedState !! 1%nat)).
    split; [reflexivity|]. split; [reflexivity|]. split; [reflexivity|].
    split; [|reflexivity].
    intros H. by specialize (H ltac:(right; left; reflexivity)).
Qed.

(** C10. At every quiescent point (for a request count that fits the
    counter) droppedBodies <= totalRequests, and totalBodySize > 0 implies
    totalRequests > 0; so neither the drop percentage nor the average body
    size of the report divides by zero. *)
Theorem report_divisions_safe (cfg : Config) (s : State) :
  reachable cfg s -> quiescent s ->
  Int64.in_range (Z.of_nat (length (handlers s))) ->
  let totalReqs := totalRequests (metrics s) in
  let totalBodySz := totalBodySize (metrics s) in
  let drops := droppedBodies (metrics s) in
  drops <= totalReqs
  /\ (0 < totalBodySz -> 0 < totalReqs)
  /\ forall format args e,
       In (Printf format args)
          (displayAverage totalBodySz totalReqs ++ displayDropped drops totalReqs) ->
       In (AFloat e) args -> divides_by_zero e = false.
Proof.
  intros Hr Hq HrN. cbv zeta.
  pose proof (reachable_Inv _ _ Hr) as HI.
  assert (Htot : totalRequests (metrics s) = Z.of_nat (length (handlers s))).
  { rewrite (inv_total _ HI), quiescent_countedTotal by done. by apply wrap_small. }
  assert (Hdrop : droppedBodies (metrics s) <= totalRequests (metrics s)).
  { rewrite Htot, (inv_dropped _ HI), quiescent_countedDrop by done.
    assert (0 <= sumZ (fun h => if dropped h then 1 else 0) (handlers s)
            <= Z.of_nat (length (handlers s))) as Hb.
    { split.
      - apply sumZ_nonneg. intros h. apply dropped_le_one.
      - rewrite <- (sumZ_length (fun _ : Handler => 1) (handlers s)) by done.
        apply sumZ_le. intros h _. apply dropped_le_one. }
    rewrite wrap_small; [lia|]. by eapply in_range_nonneg_le. }
  assert (Hbytes : 0 < totalBodySize (metrics s) -> 0 < totalRequests (metrics s)).
  { intros Hpos. rewrite Htot.
    destruct (handlers s) as [|h hs] eqn:Hhs; [|simpl; lia].
    exfalso. rewrite (inv_bytes _ HI) in Hpos.
    pose proof (inv_consumed _ HI) as Hc. rewrite Hhs in Hpos, Hc. simpl in Hpos, Hc.
    assert (0 <= sumZ queuedLen (buf (bodyQueue s))).
    { apply sumZ_nonneg. intros rb. unfold queuedLen, len. lia. }
    assert (0 <= sumZ inHand (workers s)).
    { apply sumZ_nonneg. intros w. destruct w; simpl; unfold len; lia. }
    replace (0 - sumZ queuedLen (buf (bodyQueue s)) - sumZ inHand (workers s))
      with 0 in Hpos by lia.
    by vm_compute in Hpos. }
  split; [done|]. split; [done|].
  intros format args e Hin He. apply in_app_iff in Hin as [Hin | Hin].
  - unfold displayAverage in Hin.
    destruct (Z.ltb_spec 0 (totalBodySize (metrics s))) as [Hpos|];
      simpl in Hin; destruct Hin as [Hin | []]; injection Hin as <- <-;
      simpl in He; [|done].
    destruct He as [He | []]. injection He as <-.
    specialize (Hbytes Hpos). unfold divides_by_zero. simpl.
    destruct (Z.eqb_spec (totalRequests (metrics s)) 0); [lia | done].
  - unfold displayDropped in Hin.
    destruct (Z.ltb_spec 0 (droppedBodies (metrics s))) as [Hpos|];
      simpl in Hin.
    + destruct Hin as [Hin | [Hin | [Hin | []]]]; try discriminate;
        injection Hin as <- <-; simpl in He; destruct He as [He | []];
        try discriminate.
      injection He as <-. unfold divides_by_zero. simpl.
      destruct (Z.eqb_spec (totalRequests (metrics s)) 0); [lia | done].
    + destruct Hin as [Hin | [Hin | []]]; try discriminate.
      injection Hin as <- <-. simpl in He. destruct He as [He | []]. discriminate.
Qed.

Lemma report_divisions_safe_witness :
  droppedBodies (metrics sampleState) <= totalRequests (metrics sampleState).
Proof.
  apply (report_divisions_safe sampleConfig sampleState).
  - apply sampleState_reachable.
  - apply quiescentb_ok. reflexivity.
  - small_range.
Defined.

Lemma stepHandler_mainpc i s s' : stepHandler i s = Some s' -> mainpc s' = mainpc s.
Proof.
  unfold stepHandler, trySend. intros H.
  repeat match type of H with
  | context [match ?x with _ => _ end] => destruct x eqn:?; try done
  end; by injection H as <-.
Qed.

Lemma stepWorker_mainpc j s s' : stepWorker j s = Some s' -> mainpc s' = mainpc s.
Proof.
  unfold stepWorker. intros H.
  repeat match type of H with
  | context [match ?x with _ => _ end] => destruct x eqn:?; try done
  end; by injection H as <-.
Qed.

Lemma stepMain_phase e s s' :
  stepMain e s = Some s' ->
  mainpc s' = mainpc s \/ phase (mainpc s') = S (phase (mainpc s)).
Proof.
  unfold stepMain. intros H.
  repeat match type of H with
  | context [match ?x with _ => _ end] => destruct x eqn:?; try done
  end; injection H as <-; cbn; auto.
Qed.

Lemma all_exited s :
  Inv s -> wg s = 0%nat -> forall w, w ∈ workers s -> w = WExited.
Proof.
  intros HI Hwg w Hin.
  pose proof (inv_wg _ HI) as Hsum. rewrite Hwg in Hsum.
  pose proof (sumZ_zero_inv live _ w live_nonneg (eq_sym Hsum) Hin) as Hl.
  by destruct w.
Qed.

(** C4. The shutdown sequence runs in order: [main] moves one statement
    at a time from the listener shutdown to closing the queue, to waiting
    for the workers, to the report.  A shutdown error is logged and the
    sequence continues with closing the queue.  The queue is closed
    exactly from the close statement on.  A worker has exited only if the
    queue is closed and its buffer empty.  [main] passes the wait only
    when every worker has exited, so when the report is made no worker
    holds an item, totalBodySize accounts for every accepted body that is
    not left in the buffer, and the report shows the final metrics. *)
Theorem shutdown_sequence (cfg : Config) (s : State) :
  reachable cfg s ->
  (forall a s', step a s = Some s' ->
     mainpc s' = mainpc s
     \/ ((exists err, a = StepMain err) /\ phase (mainpc s') = S (phase (mainpc s))))
  /\ (mainpc s = MShutdown ->
      forall err, exists s',
        stepMain (Some err) s = Some s' /\ mainpc s' = MClose
        /\ console s' = (console s ++ [LogPrintf "Server shutdown error: %v" [AStr err]])%list
        /\ bodyQueue s' = bodyQueue s)
  /\ (closed (bodyQueue s) = true <-> (3 <= phase (mainpc s))%nat)
  /\ (WExited ∈ workers s -> closed (bodyQueue s) = true /\ buf (bodyQueue s) = [])
  /\ (mainpc s = MWait ->
      forall err s', stepMain err s = Some s' ->
        forall w, w ∈ workers s -> w = WExited)
  /\ ((4 <= phase (mainpc s))%nat ->
      (forall w, w ∈ workers s -> w = WExited)
      /\ (workers s <> [] -> buf (bodyQueue s) = [])
      /\ totalBodySize (metrics s)
         = Int64.wrap (sumZ sentLen (handlers s) - sumZ queuedLen (buf (bodyQueue s))))
  /\ (mainpc s = MExit ->
      exists pre, console s = (pre ++ displayMetrics (metrics s) (counters s))%list).
Proof.
  intros Hr. pose proof (reachable_Inv _ _ Hr) as HI.
  split; [|split; [|split; [|split; [|split; [|split]]]]].
  - intros a s' Hs. unfold step in Hs.
    destruct (panicked s || exited (mainpc s)); [done|].
    destruct a as [|r|i|j|e].
    + injection Hs as <-. by left.
    + destruct (serving s); [|done]. injection Hs as <-. by left.
    + left. by eapply stepHandler_mainpc.
    + left. by eapply stepWorker_mainpc.
    + destruct (stepMain_phase _ _ _ Hs) as [? | ?]; [by left | right].
      split; [by exists e | done].
  - intros Hpc err. unfold stepMain. rewrite Hpc. eexists. split; [reflexivity|].
    by cbn.
  - rewrite (inv_closed _ HI). destruct (mainpc s); cbn; split; intros H;
      try lia; try (destruct H as [? | [? | ?]]; discriminate); auto.
  - apply (inv_exited _ HI).
  - intros Hpc err s' Hs. unfold stepMain in Hs. rewrite Hpc in Hs.
    destruct (wg s =? 0)%nat eqn:Hwg; [|done]. apply Nat.eqb_eq in Hwg.
    by apply all_exited.
  - intros Hph.
    assert (wg s = 0%nat) as Hwg.
    { apply (inv_display _ HI). destruct (mainpc s); cbn in Hph; auto; lia. }
    pose proof (all_exited s HI Hwg) as Hall.
    split; [done|]. split.
    + intros Hne. destruct (workers s) as [|w ws] eqn:Hw; [done|].
      assert (w = WExited) as -> by (apply Hall; by left).
      apply (inv_exited _ HI). rewrite Hw. by left.
    + rewrite (inv_bytes _ HI). f_equal.
      rewrite (sumZ_zero inHand (workers s)); [lia|].
      intros w Hin. by rewrite (Hall w Hin).
  - apply (inv_report _ HI).
Qed.

(** The sample run followed by a signal and the whole shutdown sequence. *)
Definition shutdownSchedule : list action :=
  sampleSchedule
  ++ [Signal; StepMain None; StepMain None; StepMain None;
      StepWorker 0; StepMain None; StepMain None].

Definition finalState : State :=
  Eval vm_compute in default sampleState (exec sampleConfig shutdownSchedule).

Lemma finalState_reachable : reachable sampleConfig finalState.
Proof. apply (exec_reachable _ shutdownSchedule). vm_compute. reflexivity. Qed.

Lemma shutdown_sequence_witness :
  (forall w, w ∈ workers finalState -> w = WExited)
  /\ (workers finalState <> [] -> buf (bodyQueue finalState) = [])
  /\ totalBodySize (metrics finalState)
     = Int64.wrap (sumZ sentLen (handlers finalState)
                   - sumZ queuedLen (buf (bodyQueue finalState))).
Proof.
  destruct (shutdown_sequence sampleConfig finalState finalState_reachable)
    as (_ & _ & _ & _ & _ & H & _).
  apply H. cbn. lia.
Defined.

(** * The method counters *)

Lemma sumZ_add {A} (f g : A -> Z) (l : list A) :
  sumZ (fun x => f x + g x) l = sumZ f l + sumZ g l.
Proof. induction l as [|x l IH]; simpl; [done | rewrite IH; lia]. Qed.

(** Over a list of entries with distinct keys, exactly the entry of a
    present key is counted. *)
Lemma sum_key_indicator (l : list (string * nat)) (k : string) :
  NoDup (l.*1) ->
  sumZ (fun kv => if decide (k = kv.1) then 1 else 0) l
  = if decide (k ∈ l.*1) then 1 else 0.
Proof.
  induction l as [|[k' a] l IH]; intros Hnd.
  - cbn [sumZ foldr fmap list_fmap]. destruct (decide (k ∈ [])) as [Hin|]; [|done].
    by apply elem_of_nil in Hin.
  - rewrite fmap_cons in Hnd. apply NoDup_cons in Hnd as [Hnin Hnd].
    cbn [sumZ foldr]. change (foldr _ 0 l)
      with (sumZ (fun kv : string * nat => if decide (k = kv.1) then 1 else 0) l).
    rewrite (IH Hnd), fmap_cons. cbn [fst] in *.
    destruct (decide (k = k')) as [-> | Hne].
    + destruct (decide (k' ∈ l.*1)); [done|].
      destruct (decide (k' ∈ k' :: l.*1)) as [|Hc]; [lia|].
      exfalso. apply Hc. by left.
    + destruct (decide (k ∈ l.*1)) as [Hin | Hnin'];
        destruct (decide (k ∈ k' :: l.*1)) as [Hc | Hc]; try lia.
      * exfalso. apply Hc. by right.
      * apply elem_of_cons in Hc as [? | ?]; done.
Qed.

Lemma countedMethod_returned meth h :
  hpc h = HReturned ->
  countedMethod meth h = if decide (Method (ctx h) = meth) then 1 else 0.
Proof. intros Hpc. unfold countedMethod. by rewrite Hpc. Qed.

(** The completed calls, summed over the registered methods, are the
    returned handlers. *)
Lemma sum_callsOf (mc : gmap string nat) (hs : list Handler) :
  (forall h, h ∈ hs -> hpc h = HReturned -> is_Some (mc !! Method (ctx h))) ->
  sumZ (fun kv => sumZ (countedMethod kv.1) hs) (map_to_list mc)
  = sumZ (fun h => if returned h then 1 else 0) hs.
Proof.
  induction hs as [|h hs IH]; intros Hreg.
  - simpl. apply sumZ_zero. done.
  - rewrite (sumZ_ext _ (fun kv => countedMethod kv.1 h + sumZ (countedMethod kv.1) hs))
      by done.
    rewrite sumZ_add, IH by (intros x Hx; apply Hreg; by right).
    change (sumZ (fun h => if returned h then 1 else 0) (h :: hs))
      with ((if returned h then 1 else 0)
            + sumZ (fun h => if returned h then 1 else 0) hs).
    f_equal.
    unfold returned. destruct (hpc h) eqn:Hpc;
      try (apply sumZ_zero; intros kv _; unfold countedMethod; by rewrite Hpc).
    rewrite (sumZ_ext _ (fun kv => if decide (Method (ctx h) = kv.1) then 1 else 0)).
    + rewrite sum_key_indicator by apply NoDup_fst_map_to_list.
      rewrite decide_True; [done|].
      destruct (Hreg h ltac:(by left) Hpc) as [a Ha].
      apply list_elem_of_fmap. exists (Method (ctx h), a). split; [done|].
      by apply elem_of_map_to_list.
    + intros kv _. by rewrite countedMethod_returned.
Qed.

Lemma callsOf_bounds meth s :
  0 <= callsOf meth s <= Z.of_nat (length (handlers s)).
Proof.
  unfold callsOf. split.
  - apply sumZ_nonneg. apply countedMethod_nonneg.
  - rewrite <- (sumZ_length (fun _ : Handler => 1) (handlers s)) by done.
    apply sumZ_le. intros h _. unfold countedMethod.
    destruct (hpc h); try lia. case_decide; lia.
Qed.

(** C2. At every quiescent point totalRequests equals the sum over all
    methods of methodCounts[method] (for a request count that fits the
    64-bit counters). *)
Theorem total_is_sum_of_methods (cfg : Config) (s : State) :
  reachable cfg s -> quiescent s ->
  Int64.in_range (Z.of_nat (length (handlers s))) ->
  totalRequests (metrics s) = sumMethodCounts s.
Proof.
  intros Hr Hq HrN. pose proof (reachable_Inv _ _ Hr) as HI.
  rewrite (inv_total _ HI), quiescent_countedTotal, wrap_small by done.
  unfold sumMethodCounts.
  rewrite (sumZ_ext _ (fun kv => sumZ (countedMethod kv.1) (handlers s))).
  - rewrite sum_callsOf.
    + symmetry. apply sumZ_length. intros h Hin. unfold returned.
      by rewrite (Hq h Hin).
    + intros h Hin Hpc. pose proof (inv_handlers _ HI h Hin) as [Hp _].
      by rewrite Hpc in Hp.
  - intros [meth a] Hin. apply elem_of_map_to_list in Hin. cbn [fst snd].
    unfold Load. rewrite (inv_count _ HI _ _ Hin). cbn [default].
    apply wrap_small. eapply in_range_nonneg_le; [apply callsOf_bounds | done].
Qed.

Lemma total_is_sum_of_methods_witness :
  totalRequests (metrics sampleState) = sumMethodCounts sampleState.
Proof.
  apply (total_is_sum_of_methods sampleConfig sampleState).
  - apply sampleState_reachable.
  - apply quiescentb_ok. reflexivity.
  - small_range.
Defined.

(** The number of requests whose method is [meth]. *)
Definition requestsWith (meth : string) (s : State) : Z :=
  sumZ (fun h => if decide (Method (ctx h) = meth) then 1 else 0) (handlers s).

(** C5. No two methods share a counter object and there are exactly as
    many counter objects as registered methods, so at most one object is
    created per method name; an entry exists only for a method some
    request used, and its value is the number of completed calls for that
    method.  Once every handler has returned, methodCounts[meth] exists
    if and only if some request used [meth], and its value is the number
    of requests with that method. *)
Theorem method_counters (cfg : Config) (s : State) :
  reachable cfg s ->
  length (counters s) = size (methodCounts (metrics s))
  /\ (forall m1 m2 a,
        methodCounts (metrics s) !! m1 = Some a ->
        methodCounts (metrics s) !! m2 = Some a -> m1 = m2)
  /\ (forall meth,
        is_Some (methodCount s meth) ->
        methodCount s meth = Some (Int64.wrap (callsOf meth s))
        /\ exists h, h ∈ handlers s /\ Method (ctx h) = meth)
  /\ (quiescent s ->
      forall meth,
        (is_Some (methodCount s meth)
         <-> exists h, h ∈ handlers s /\ Method (ctx h) = meth)
        /\ (Int64.in_range (Z.of_nat (length (handlers s))) ->
            is_Some (methodCount s meth) ->
            methodCount s meth = Some (requestsWith meth s))).
Proof.
  intros Hr. pose proof (reachable_Inv _ _ Hr) as HI.
  assert (Hval : forall meth, is_Some (methodCount s meth) ->
            methodCount s meth = Some (Int64.wrap (callsOf meth s))
            /\ is_Some (methodCounts (metrics s) !! meth)).
  { intros meth [v Hv]. unfold methodCount in *.
    destruct (methodCounts (metrics s) !! meth) as [a|] eqn:Ha; [|done].
    split; [|by eexists]. by apply (inv_count _ HI). }
  split; [apply (inv_objects _ HI)|]. split; [apply (inv_inj _ HI)|]. split.
  - intros meth Hsome. destruct (Hval meth Hsome) as [Hv Hreg].
    split; [done|]. by apply (inv_used _ HI).
  - intros Hq meth. split; [split|].
    + intros Hsome. apply (inv_used _ HI). by apply Hval.
    + intros (h & Hin & Hm). pose proof (inv_handlers _ HI h Hin) as [Hp _].
      rewrite (Hq h Hin), Hm in Hp. destruct Hp as [a Ha].
      unfold methodCount. rewrite Ha, (inv_count _ HI _ _ Ha). by eexists.
    + intros HrN Hsome. destruct (Hval meth Hsome) as [-> _]. f_equal.
      rewrite wrap_small
        by (eapply in_range_nonneg_le; [apply callsOf_bounds | done]).
      unfold callsOf, requestsWith. apply sumZ_ext. intros h Hin.
      by apply countedMethod_returned, Hq.
Qed.

Lemma method_counters_witness :
  methodCount sampleState "POST" = Some (Int64.wrap (callsOf "POST" sampleState)).
Proof.
  destruct (method_counters sampleConfig sampleState sampleState_reachable)
    as (_ & _ & H & _).
  apply H. vm_compute. by eexists.
Defined.

(** * A request handled alone *)

(** The state [s] with one more handler [h], and with the metrics, the
    counter heap and the console output that handler has produced. *)
Definition solo (s : State) (h : Handler) (m : Metrics) (cs : list Z)
    (o : list out) : State :=
  {| metrics := m; counters := cs; bodyQueue := bodyQueue s;
     handlers := handlers s ++ [h]; workers := workers s; wg := wg s;
     mainpc := mainpc s; sigChan := sigChan s; serving := serving s;
     console := console s ++ o; panicked := panicked s |}.

Lemma solo_lookup s h m cs o :
  handlers (solo s h m cs o) !! length (handlers s) = Some h.
Proof. cbn. rewrite lookup_app_r, Nat.sub_diag by lia. done. Qed.

Lemma solo_put s h h' m cs o :
  putHandler (length (handlers s)) h' (solo s h m cs o) = solo s h' m cs o.
Proof.
  unfold putHandler, setHandlers, solo. cbn. f_equal.
  rewrite insert_app_r_alt, Nat.sub_diag by lia. done.
Qed.

Lemma runHandler_step fuel i s h s' :
  handlers s !! i = Some h -> returned h = false ->
  step (StepHandler i) s = Some s' ->
  runHandler (S fuel) i s = runHandler fuel i s'.
Proof. intros Hi Hr Hs. cbn [runHandler]. by rewrite Hi, Hr, Hs. Qed.

Lemma runHandler_done fuel i s h :
  handlers s !! i = Some h -> returned h = true -> runHandler fuel i s = Some s.
Proof. intros Hi Hr. destruct fuel; cbn [runHandler]; by rewrite Hi, Hr. Qed.

Lemma solo_put_metrics s h h' m m' cs o :
  putHandler (length (handlers s)) h' (setMetrics m' (solo s h m cs o))
  = solo s h' m' cs o.
Proof. apply (solo_put s h h' m' cs o). Qed.

Lemma solo_put_print s h h' m cs o o' :
  putHandler (length (handlers s)) h' (print o' (solo s h m cs o))
  = solo s h' m cs (o ++ o').
Proof.
  unfold putHandler, setHandlers, print, solo. cbn. f_equal.
  - rewrite insert_app_r_alt, Nat.sub_diag by lia. done.
  - by rewrite app_assoc.
Qed.

Lemma solo_put_counters s h h' m cs cs' o :
  putHandler (length (handlers s)) h' (setCounters cs' (solo s h m cs o))
  = solo s h' m cs' o.
Proof. apply (solo_put s h h' m cs' o). Qed.

Lemma solo_put_create s h h' m m' cs cs' o :
  putHandler (length (handlers s)) h'
    (setCounters cs' (setMetrics m' (solo s h m cs o)))
  = solo s h' m' cs' o.
Proof. apply (solo_put s h h' m' cs' o). Qed.

Lemma accept_solo r s :
  setHandlers (handlers s ++ [newHandler r]) s
  = solo s (newHandler r) (metrics s) (counters s) [].
Proof. destruct s. unfold setHandlers, solo. cbn. by rewrite app_nil_r. Qed.

Ltac solo_next Hpan Hexit rw :=
  erewrite runHandler_step;
  [ | apply solo_lookup | reflexivity
    | unfold step; cbn [panicked mainpc solo]; rewrite Hpan, Hexit; cbn [orb];
      unfold stepHandler; rewrite solo_lookup;
      cbn [hpc ctx atPC withStatus took newHandler metrics solo counters
           methodCountsMux methodCounts setMux setTotalRequests setMethodCounts
           readers writer Nat.pred];
      rw;
      cbn [orb negb Nat.eqb];
      rewrite ?solo_put, ?solo_put_metrics, ?solo_put_print, ?solo_put_counters,
        ?solo_put_create;
      reflexivity ].

Lemma quiescent_mutex_free s :
  Inv s -> quiescent s ->
  writer (methodCountsMux (metrics s)) = false
  /\ readers (methodCountsMux (metrics s)) = 0%nat.
Proof.
  intros HI Hq.
  assert (sumZ inWriteSection (handlers s) = 0) as Hw.
  { apply sumZ_zero. intros h Hin. unfold inWriteSection. by rewrite (Hq h Hin). }
  assert (sumZ inReadSection (handlers s) = 0) as Hr.
  { apply sumZ_zero. intros h Hin. unfold inReadSection. by rewrite (Hq h Hin). }
  pose proof (inv_writer _ HI) as Hw'. pose proof (inv_readers _ HI) as Hr'.
  rewrite Hw in Hw'. rewrite Hr in Hr'.
  split; [by destruct (writer _) | lia].
Qed.

(** C7. A request with an empty body, handled from a quiescent state of
    the running server: the handler returns with status 200, totalRequests
    and the counter of its method are each incremented by one (the counter
    is created at 1 when the method is new), and nothing else changes: no
    item is enqueued, the queue and the workers are untouched, and
    totalBodySize, droppedBodies and the other methods' counters keep
    their values. *)
Theorem empty_body_request (cfg : Config) (s : State) (r : Request) :
  reachable cfg s -> quiescent s ->
  panicked s = false -> exited (mainpc s) = false -> serving s = true ->
  len (Body r) = 0 ->
  exists s',
    serveAlone r s = Some s'
    /\ handlers s'
       = (handlers s ++ [{| ctx := r; statusCode := Some 200; hpc := HReturned;
                            branch := None |}])%list
    /\ totalRequests (metrics s') = Int64.Add (totalRequests (metrics s)) 1
    /\ methodCount s' (Method r)
       = Some (Int64.Add (default 0 (methodCount s (Method r))) 1)
    /\ (forall meth, meth <> Method r -> methodCount s' meth = methodCount s meth)
    /\ bodyQueue s' = bodyQueue s
    /\ workers s' = workers s
    /\ totalBodySize (metrics s') = totalBodySize (metrics s)
    /\ droppedBodies (metrics s') = droppedBodies (metrics s)
    /\ methodCountsMux (metrics s') = methodCountsMux (metrics s)
    /\ console s' = (console s ++ handlerOutput r)%list.
Proof.
  intros Hr Hq Hpan Hexit Hserv Hlen.
  pose proof (reachable_Inv _ _ Hr) as HI.
  destruct (quiescent_mutex_free s HI Hq) as [Hw Hrd].
  assert ((0 <? len (Body r)) = false) as Hlen' by (rewrite Hlen; done).
  unfold serveAlone, step. rewrite Hpan, Hexit, Hserv. cbn [orb].
  rewrite accept_solo.
  solo_next Hpan Hexit idtac.
  solo_next Hpan Hexit idtac.
  solo_next Hpan Hexit ltac:(rewrite Hlen').
  solo_next Hpan Hexit idtac.
  solo_next Hpan Hexit ltac:(rewrite Hw).
  solo_next Hpan Hexit idtac.
  destruct (methodCounts (metrics s) !! Method r) as [a|] eqn:Hm.
  - pose proof (inv_count _ HI _ _ Hm) as Hv.
    solo_next Hpan Hexit idtac.
    solo_next Hpan Hexit ltac:(rewrite Hv).
    erewrite runHandler_done; [| apply solo_lookup | reflexivity].
    eexists. split; [reflexivity|].
    assert (a < length (counters s))%nat as Hlt by (by eapply lookup_lt_Some).
    split; [done|]. split; [done|]. split.
    { unfold methodCount. cbn. rewrite Hm, Hv. cbn.
      by rewrite list_lookup_insert_eq. }
    split.
    { intros meth Hne. unfold methodCount. cbn.
      destruct (methodCounts (metrics s) !! meth) as [a'|] eqn:Hm'; [|done].
      rewrite list_lookup_insert_ne; [done|].
      intros <-. apply Hne. by eapply (inv_inj _ HI). }
    split; [done|]. split; [done|]. split; [done|]. split; [done|]. split.
    { cbn. destruct (methodCountsMux (metrics s)). cbn in *. by subst. }
    done.
  - solo_next Hpan Hexit idtac.
    solo_next Hpan Hexit ltac:(rewrite ?Hw, ?Hrd).
    solo_next Hpan Hexit ltac:(rewrite Hm).
    solo_next Hpan Hexit idtac.
    solo_next Hpan Hexit idtac.
    solo_next Hpan Hexit
      ltac:(rewrite (lookup_app_r (counters s) [0]), Nat.sub_diag by lia; cbn [lookup list_lookup]).
    erewrite runHandler_done; [| apply solo_lookup | reflexivity].
    eexists. split; [reflexivity|].
    assert (Hold : forall meth a', methodCounts (metrics s) !! meth = Some a' ->
                     (a' < length (counters s))%nat).
    { intros meth a' Ha'. eapply lookup_lt_Some. by apply (inv_count _ HI). }
    split; [done|]. split; [done|]. split.
    { unfold methodCount. cbn. rewrite Hm, lookup_insert_eq. cbn.
      rewrite list_lookup_insert_eq by (rewrite length_app; simpl; lia).
      done. }
    split.
    { intros meth Hne. unfold methodCount. cbn.
      rewrite lookup_insert_ne by done.
      destruct (methodCounts (metrics s) !! meth) as [a'|] eqn:Hm'; [|done].
      pose proof (Hold _ _ Hm').
      rewrite list_lookup_insert_ne by lia. by rewrite lookup_app_l. }
    split; [done|]. split; [done|]. split; [done|]. split; [done|]. split.
    { cbn. destruct (methodCountsMux (metrics s)). cbn in *. by subst. }
    done.
Qed.

Lemma empty_body_request_witness :
  exists s',
    serveAlone (get "/health") postsState = Some s'
    /\ totalRequests (metrics s') = 3
    /\ methodCount s' "GET" = Some 1
    /\ totalBodySize (metrics s') = 10
    /\ bodyQueue s' = bodyQueue postsState.
Proof.
  destruct (empty_body_request sampleConfig postsState (get "/health"))
    as (s' & Hrun & _ & Htot & Hget & _ & Hq & _ & Hbytes & _).
  - apply postsState_reachable.
  - apply quiescentb_ok. reflexivity.
  - reflexivity.
  - reflexivity.
  - reflexivity.
  - reflexivity.
  - exists s'. split; [exact Hrun|]. split; [exact Htot|]. split; [exact Hget|].
    split; [exact Hbytes | exact Hq].
Defined.

(** * Further properties of the pipeline *)

(** ** What the steps leave alone *)

Ltac step_cases H :=
  repeat match type of H with
  | context [match ?x with _ => _ end] => destruct x eqn:?; try done
  end; injection H as <-.

Lemma trySend_frame rb c ws c' ws' :
  trySend rb c ws = SendOk c' ws' ->
  dataqsiz c' = dataqsiz c /\ closed c' = closed c /\ length ws' = length ws.
Proof.
  unfold trySend. intros H.
  repeat match type of H with
  | context [match ?x with _ => _ end] => destruct x eqn:?; try done
  end; injection H as <- <-; cbn; rewrite ?length_insert; auto.
Qed.

Lemma stepHandler_frame i s s' :
  stepHandler i s = Some s' ->
  serving s' = serving s /\ wg s' = wg s
  /\ dataqsiz (bodyQueue s') = dataqsiz (bodyQueue s)
  /\ closed (bodyQueue s') = closed (bodyQueue s)
  /\ length (workers s') = length (workers s)
  /\ length (handlers s') = length (handlers s).
Proof.
  unfold stepHandler. intros H.
  step_cases H; cbn; rewrite ?length_insert; auto 10.
  match goal with Hs : trySend _ _ _ = SendOk _ _ |- _ =>
    apply trySend_frame in Hs as (-> & -> & ->) end.
  auto 10.
Qed.

Lemma stepWorker_frame j s s' :
  stepWorker j s = Some s' ->
  serving s' = serving s /\ handlers s' = handlers s
  /\ panicked s' = panicked s
  /\ dataqsiz (bodyQueue s') = dataqsiz (bodyQueue s)
  /\ closed (bodyQueue s') = closed (bodyQueue s)
  /\ length (workers s') = length (workers s).
Proof.
  unfold stepWorker. intros H.
  step_cases H; cbn; rewrite ?length_insert; auto 10.
Qed.

Lemma stepMain_frame e s s' :
  stepMain e s = Some s' ->
  handlers s' = handlers s /\ workers s' = workers s /\ wg s' = wg s
  /\ dataqsiz (bodyQueue s') = dataqsiz (bodyQueue s)
  /\ buf (bodyQueue s') = buf (bodyQueue s)
  /\ metrics s' = metrics s /\ counters s' = counters s.
Proof.
  unfold stepMain. intros H.
  step_cases H; cbn; auto 10.
Qed.

Lemma step_sizes a s s' :
  step a s = Some s' ->
  dataqsiz (bodyQueue s') = dataqsiz (bodyQueue s)
  /\ length (workers s') = length (workers s).
Proof.
  unfold step. intros H.
  destruct (panicked s || exited (mainpc s)); [done|].
  destruct a as [|r|i|j|e].
  - by injection H as <-.
  - destruct (serving s); [|done]. by injection H as <-.
  - apply stepHandler_frame in H. tauto.
  - apply stepWorker_frame in H. tauto.
  - apply stepMain_frame in H as (_ & -> & _ & -> & _). done.
Qed.

Lemma reachable_sizes cfg s :
  reachable cfg s ->
  dataqsiz (bodyQueue s) = Z.to_nat (queueSizeFlag cfg)
  /\ length (workers s) = Z.to_nat (workersFlag cfg).
Proof.
  intros (s0 & sched & Hb & Hr).
  assert (dataqsiz (bodyQueue s0) = Z.to_nat (queueSizeFlag cfg)
          /\ length (workers s0) = Z.to_nat (workersFlag cfg)) as H0.
  { unfold boot in Hb. destruct (queueSizeFlag cfg <? 0); [done|].
    injection Hb as <-. cbn. by rewrite length_replicate. }
  clear Hb. revert s0 Hr H0.
  induction sched as [|a sched IH]; intros s0 Hr H0; simpl in Hr.
  - by injection Hr as <-.
  - destruct (step a s0) as [s1|] eqn:Hs; [|done].
    apply (IH s1 Hr). apply step_sizes in Hs as [-> ->]. done.
Qed.

(** ** Accounting, capacity and locking *)

(** X1. In every reachable state, whatever the interleaving, the three
    atomic counters agree with what the handlers and workers have done:
    totalRequests counts the handlers past their totalRequests.Add(1),
    droppedBodies the handlers past their droppedBodies.Add(1), and
    totalBodySize is the bytes of the accepted bodies less those still in
    the buffer or in a worker's hands (all modulo 2^64); the bytes
    consumed are never negative. *)
Theorem counters_account (cfg : Config) (s : State) :
  reachable cfg s ->
  totalRequests (metrics s) = Int64.wrap (sumZ countedTotal (handlers s))
  /\ droppedBodies (metrics s) = Int64.wrap (sumZ countedDrop (handlers s))
  /\ totalBodySize (metrics s)
     = Int64.wrap (sumZ sentLen (handlers s)
                   - sumZ queuedLen (buf (bodyQueue s))
                   - sumZ inHand (workers s))
  /\ 0 <= sumZ sentLen (handlers s)
          - sumZ queuedLen (buf (bodyQueue s))
          - sumZ inHand (workers s).
Proof.
  intros Hr. pose proof (reachable_Inv _ _ Hr) as HI.
  split; [apply (inv_total _ HI)|]. split; [apply (inv_dropped _ HI)|].
  split; [apply (inv_bytes _ HI) | apply (inv_consumed _ HI)].
Qed.

Lemma counters_account_witness :
  totalRequests (metrics sampleState)
  = Int64.wrap (sumZ countedTotal (handlers sampleState)).
Proof.
  apply (counters_account sampleConfig sampleState). apply sampleState_reachable.
Defined.

(** X2. The backlog never exceeds the configured queue size, and the
    number of workers is the configured one (none when the flag is not
    positive); the program only runs with a non-negative queue size. *)
Theorem queue_within_capacity (cfg : Config) (s : State) :
  reachable cfg s ->
  (length (buf (bodyQueue s)) <= Z.to_nat (queueSizeFlag cfg))%nat
  /\ length (workers s) = Z.to_nat (workersFlag cfg)
  /\ 0 <= queueSizeFlag cfg.
Proof.
  intros Hr. pose proof (reachable_Inv _ _ Hr) as HI.
  destruct (reachable_sizes _ _ Hr) as [Hq Hw].
  split; [|split; [done|]].
  - rewrite <- Hq. apply (inv_cap _ HI).
  - destruct Hr as (s0 & _ & Hb & _). unfold boot in Hb.
    destruct (Z.ltb_spec (queueSizeFlag cfg) 0); [done | lia].
Qed.

Lemma queue_within_capacity_witness :
  (length (buf (bodyQueue sampleState)) <= 2)%nat
  /\ length (workers sampleState) = 1%nat /\ 0 <= 2.
Proof.
  apply (queue_within_capacity sampleConfig sampleState).
  apply sampleState_reachable.
Defined.

Lemma sumZ_pos_witness {A} (f : A -> Z) (l : list A) :
  0 < sumZ f l -> exists i x, l !! i = Some x /\ f x <> 0.
Proof.
  induction l as [|y l IH]; simpl; [lia|]. intros Hpos.
  destruct (decide (f y = 0)) as [Hy | Hy].
  - destruct IH as (i & x & Hi & Hx); [lia|]. by exists (S i), x.
  - by exists 0%nat, y.
Qed.

(** X3. The method map is never read while it is written: when a handler
    holds the write lock (it is between Lock and Unlock) no other handler
    is between RLock and RUnlock or between Lock and Unlock; and the
    lock's reader count is exactly the number of handlers between RLock
    and RUnlock. *)
Theorem map_access_exclusive (cfg : Config) (s : State) :
  reachable cfg s ->
  Z.of_nat (readers (methodCountsMux (metrics s)))
  = sumZ inReadSection (handlers s)
  /\ forall i j h h',
       handlers s !! i = Some h -> handlers s !! j = Some h' -> i <> j ->
       inWriteSection h = 1 ->
       inWriteSection h' = 0 /\ inReadSection h' = 0.
Proof.
  intros Hr. pose proof (reachable_Inv _ _ Hr) as HI.
  split; [apply (inv_readers _ HI)|].
  intros i j h h' Hi Hj Hne Hw.
  split; [by eapply (writer_alone s i j h h')|].
  pose proof (sumZ_lookup_le inWriteSection _ _ _ inWriteSection_nonneg Hi) as Hge.
  rewrite (inv_writer _ HI), Hw in Hge.
  destruct (writer (methodCountsMux (metrics s))) eqn:Hwr; [|lia].
  pose proof (inv_excl _ HI Hwr) as Hrd.
  pose proof (inv_readers _ HI) as Hsum. rewrite Hrd in Hsum.
  pose proof (sumZ_lookup_le inReadSection _ _ _ inReadSection_nonneg Hj).
  pose proof (inReadSection_nonneg h'). lia.
Qed.

Lemma map_access_exclusive_witness :
  Z.of_nat (readers (methodCountsMux (metrics sampleState)))
  = sumZ inReadSection (handlers sampleState).
Proof.
  apply (map_access_exclusive sampleConfig sampleState).
  apply sampleState_reachable.
Defined.

(** The handler is past its dump block: the statements it has left
    write nothing to the console. *)
Definition printed (h : Handler) : bool :=
  match hpc h with
  | HSetStatus | HDump => false
  | _ => true
  end.

(** The handler waits for the write lock. *)
Definition atLock (h : Handler) : Z :=
  match hpc h with
  | HLock => 1
  | _ => 0
  end.

Lemma atLock_nonneg h : 0 <= atLock h.
Proof. unfold atLock. destruct (hpc h); lia. Qed.

Lemma stepHandler_enabled i s h :
  handlers s !! i = Some h -> printed h = true ->
  hpc h <> HReturned -> hpc h <> HRLock -> hpc h <> HLock ->
  is_Some (stepHandler i s).
Proof.
  intros Hi Hp H1 H2 H3. unfold stepHandler. rewrite Hi.
  unfold printed in Hp.
  destruct (hpc h); try done; try (by eexists).
  - destruct (0 <? len (Body (ctx h))); [|by eexists].
    destruct (trySend _ _ _); by eexists.
  - destruct (counters s !! counter); by eexists.
Qed.

(** While some handler past its dump block has not returned, one of
    them can step; and the one that can is at [RLock] only when no
    handler waits for the write lock. *)
Lemma some_handler_enabled s :
  Inv s ->
  (exists h, h ∈ handlers s /\ printed h = true /\ hpc h <> HReturned) ->
  exists i h',
    handlers s !! i = Some h' /\ printed h' = true
    /\ is_Some (stepHandler i s)
    /\ (hpc h' = HRLock -> forall x, x ∈ handlers s -> hpc x <> HLock).
Proof.
  intros HI (h & Hin & Hp & Hnr). apply list_elem_of_lookup in Hin as [i Hi].
  pose proof (inv_writer _ HI) as Hwsum. pose proof (inv_readers _ HI) as Hrsum.
  destruct (writer (methodCountsMux (metrics s))) eqn:Hw.
  { destruct (sumZ_pos_witness inWriteSection (handlers s)) as (j & x & Hj & Hx);
      [lia|].
    exists j, x. unfold inWriteSection in Hx. split; [done|].
    split; [unfold printed; by destruct (hpc x)|]. split.
    - apply (stepHandler_enabled j s x Hj); unfold printed; by destruct (hpc x).
    - intros Hpc. by rewrite Hpc in Hx. }
  destruct (readers (methodCountsMux (metrics s))) as [|n] eqn:Hrd.
  2:{ destruct (sumZ_pos_witness inReadSection (handlers s)) as (j & x & Hj & Hx);
        [lia|].
      exists j, x. unfold inReadSection in Hx. split; [done|].
      split; [unfold printed; by destruct (hpc x)|]. split.
      - apply (stepHandler_enabled j s x Hj); unfold printed; by destruct (hpc x).
      - intros Hpc. by rewrite Hpc in Hx. }
  assert (Hfree : forall j x, handlers s !! j = Some x -> hpc x = HLock ->
            is_Some (stepHandler j s)).
  { intros j x Hj Hpc. unfold stepHandler. rewrite Hj, Hpc, Hw, Hrd. by eexists. }
  destruct (hpc h) eqn:Hpc;
    try (exists i, h; split; [done|]; split; [done|]; split;
         [apply (stepHandler_enabled i s h Hi Hp); by rewrite Hpc
         | by rewrite Hpc]);
    try (by unfold printed in Hp; rewrite Hpc in Hp).
  - destruct (Z.lt_ge_cases 0 (sumZ atLock (handlers s))) as [Hpos | Hnone].
    + destruct (sumZ_pos_witness atLock (handlers s) Hpos) as (j & x & Hj & Hx).
      assert (Hxl : hpc x = HLock) by (unfold atLock in Hx; by destruct (hpc x)).
      exists j, x. split; [done|]. split; [unfold printed; by rewrite Hxl|].
      split; [by apply (Hfree j x) | by rewrite Hxl].
    + exists i, h. split; [done|]. split; [done|]. split.
      * unfold stepHandler. rewrite Hi, Hpc, Hw. by eexists.
      * intros _ x Hx Hxl.
        assert (Hz : sumZ atLock (handlers s) = 0).
        { pose proof (sumZ_nonneg atLock (handlers s) atLock_nonneg). lia. }
        pose proof (sumZ_zero_inv atLock _ x atLock_nonneg Hz Hx) as H0.
        unfold atLock in H0. by rewrite Hxl in H0.
  - exists i, h. split; [done|]. split; [done|]. split; [by apply (Hfree i h)|].
    by rewrite Hpc.
Qed.



(** ** The workers *)

(** X5. The WaitGroup counter is the number of workers that have not
    returned.  A worker that has not returned can be blocked only in its
    receive, and only while the queue is open and empty; it is then
    registered as a waiting receiver, so the next send wakes it: a body
    never sits in the queue while a worker sleeps. *)
Theorem workers_wait_only_when_idle (cfg : Config) (s : State) :
  reachable cfg s ->
  Z.of_nat (wg s) = sumZ live (workers s)
  /\ forall j w,
       workers s !! j = Some w -> w <> WExited -> stepWorker j s = None ->
       w = WParked /\ closed (bodyQueue s) = false
       /\ buf (bodyQueue s) = [] /\ j ∈ recvq (bodyQueue s).
Proof.
  intros Hr. pose proof (reachable_Inv _ _ Hr) as HI.
  split; [apply (inv_wg _ HI)|].
  intros j w Hj Hne Hstep. unfold stepWorker in Hstep. rewrite Hj in Hstep.
  destruct w as [| |rb|]; try done.
  - destruct (buf (bodyQueue s)); [|done]. by destruct (closed (bodyQueue s)).
  - destruct (closed (bodyQueue s)) eqn:Hc; [done|].
    split; [done|]. split; [done|]. split.
    + apply (inv_parked_buf _ HI). by apply list_elem_of_lookup_2 in Hj.
    + by apply (inv_parked _ HI).
Qed.

(** The worker has found the queue empty and sleeps in its receive. *)
Definition idleState : State :=
  Eval vm_compute in default sampleState (exec sampleConfig [StepWorker 0]).

Lemma idleState_reachable : reachable sampleConfig idleState.
Proof. apply (exec_reachable _ [StepWorker 0]). vm_compute. reflexivity. Qed.

Lemma workers_wait_only_when_idle_witness :
  WParked = WParked /\ closed (bodyQueue idleState) = false
  /\ buf (bodyQueue idleState) = [] /\ 0%nat ∈ recvq (bodyQueue idleState).
Proof.
  destruct (workers_wait_only_when_idle sampleConfig idleState
              idleState_reachable) as [_ H].
  apply (H 0%nat WParked); [reflexivity | discriminate | reflexivity].
Defined.

(** ** Graceful runs *)

(** A run is graceful when [server.Shutdown] returns no error: it then
    returns only after the listener is closed and every handler has
    returned. *)
Definition graceful (a : action) : bool :=
  match a with
  | StepMain (Some _) => false
  | _ => true
  end.

(** The requests a schedule accepts, in order. *)
Definition accepted (sched : list action) : list Request :=
  flat_map (fun a => match a with Accept r => [r] | _ => [] end) sched.

(** Past [server.Shutdown] no handler runs and no request comes in. *)
Definition settled (s : State) : Prop :=
  panicked s = false
  /\ ((2 <= phase (mainpc s))%nat -> serving s = false /\ quiescent s).

Lemma stepHandler_no_panic i s s' :
  Inv s -> closed (bodyQueue s) = false ->
  stepHandler i s = Some s' -> panicked s' = panicked s.
Proof.
  intros HI Hc H. unfold stepHandler in H.
  destruct (handlers s !! i) as [h|] eqn:Hi; [|done].
  assert (Hok : handlerOk (methodCounts (metrics s)) h).
  { apply (inv_handlers _ HI). by apply list_elem_of_lookup_2 in Hi. }
  destruct (hpc h) eqn:Hpc; try done; try (by injection H as <-).
  - destruct (0 <? len (Body (ctx h))); [|by injection H as <-].
    unfold trySend in H. rewrite Hc in H.
    destruct (recvq (bodyQueue s)); [|by injection H as <-].
    destruct (length (buf (bodyQueue s)) <? dataqsiz (bodyQueue s))%nat;
      by injection H as <-.
  - destruct (writer _); [done | by injection H as <-].
  - destruct (_ || _); [done | by injection H as <-].
  - destruct Hok as [Hp _]. rewrite Hpc in Hp.
    rewrite (inv_count _ HI _ _ Hp) in H. by injection H as <-.
Qed.

Lemma stepHandler_not_returned i s s' :
  stepHandler i s = Some s' ->
  exists h, h ∈ handlers s /\ hpc h <> HReturned.
Proof.
  unfold stepHandler. intros H.
  destruct (handlers s !! i) as [h|] eqn:Hi; [|done].
  exists h. split; [by apply list_elem_of_lookup_2 in Hi|].
  intros Hpc. by rewrite Hpc in H.
Qed.

Lemma open_before_close s :
  Inv s -> (phase (mainpc s) < 3)%nat -> closed (bodyQueue s) = false.
Proof.
  intros HI Hp. destruct (closed (bodyQueue s)) eqn:Hc; [|done].
  apply (inv_closed _ HI) in Hc. destruct Hc as [Hc | [Hc | Hc]];
    rewrite Hc in Hp; cbn in Hp; lia.
Qed.

Lemma graceful_step a s s' :
  Inv s -> settled s -> graceful a = true -> step a s = Some s' -> settled s'.
Proof.
  intros HI [Hp Hq] Hg H. unfold step in H.
  destruct (panicked s || exited (mainpc s)); [done|].
  destruct a as [|r|i|j|e].
  - injection H as <-. by split.
  - destruct (serving s) eqn:Hs; [|done]. injection H as <-.
    split; [done|]. cbn. intros Hph. destruct (Hq Hph) as [Hf _]. congruence.
  - pose proof (stepHandler_mainpc _ _ _ H) as Hm.
    destruct (stepHandler_not_returned _ _ _ H) as (h & Hin & Hnr).
    assert (Hlt : (phase (mainpc s) < 2)%nat).
    { destruct (le_lt_dec 2 (phase (mainpc s))) as [Hge|]; [|done].
      destruct (Hq Hge) as [_ Hqu]. by specialize (Hqu h Hin). }
    split.
    + rewrite (stepHandler_no_panic _ _ _ HI) by
        (done || (apply open_before_close; [done | lia])). done.
    + rewrite Hm. lia.
  - pose proof (stepWorker_mainpc _ _ _ H) as Hm.
    apply stepWorker_frame in H as (Hs & Hh & Hpan & _).
    split; [congruence|]. rewrite Hm. unfold quiescent. rewrite Hs, Hh. exact Hq.
  - destruct e as [err|]; [done|].
    pose proof (open_before_close _ HI) as Hopen.
    unfold stepMain in H. destruct (mainpc s) eqn:Hpc; cbn in Hq.
    + destruct (sigChan s); [|done]. injection H as <-. split; [done|]. cbn. lia.
    + destruct (forallb returned (handlers s)) eqn:Hall; [|done].
      injection H as <-. split; [done|]. cbn. intros _. split; [done|].
      by apply quiescentb_ok.
    + rewrite Hopen in H by (cbn; lia). injection H as <-.
      split; [done|]. cbn. intros _. apply Hq. lia.
    + destruct (wg s =? 0)%nat; [|done]. injection H as <-.
      split; [done|]. cbn. intros _. apply Hq. lia.
    + destruct (writer _); [done|]. injection H as <-.
      split; [done|]. cbn. intros _. apply Hq. lia.
    + done.
Qed.

Lemma graceful_run sched s0 s :
  Inv s0 -> settled s0 -> forallb graceful sched = true ->
  run sched s0 = Some s -> settled s.
Proof.
  revert s0. induction sched as [|a sched IH]; intros s0 HI HK Hg Hr; simpl in *.
  - by injection Hr as <-.
  - apply andb_true_iff in Hg as [Ha Hg].
    destruct (step a s0) as [s1|] eqn:Hs; [|done].
    apply (IH s1); [by eapply step_Inv | by eapply graceful_step | done | done].
Qed.

Lemma boot_settled cfg s0 : boot cfg = Some s0 -> settled s0.
Proof.
  unfold boot. destruct (queueSizeFlag cfg <? 0); [done|].
  intros H. injection H as <-. split; [done|]. cbn. lia.
Qed.

Lemma exec_settled cfg sched s :
  exec cfg sched = Some s -> forallb graceful sched = true -> Inv s /\ settled s.
Proof.
  unfold exec. destruct (boot cfg) as [s0|] eqn:Hb; [|done]. intros Hr Hg.
  split.
  - eapply run_Inv; [by eapply boot_Inv | done].
  - eapply graceful_run; [by eapply boot_Inv | by eapply boot_settled | done | done].
Qed.

(** X6. The program never panics when [server.Shutdown] returns no
    error, whatever the requests and the interleaving: no body is sent on
    the closed queue, the queue is closed once, and [counter.Add] never
    meets a nil counter.  From [close(bodyQueue)] on, no handler is in
    flight and no request is accepted. *)
Theorem graceful_run_never_panics (cfg : Config) (sched : list action) (s : State) :
  exec cfg sched = Some s -> forallb graceful sched = true ->
  panicked s = false
  /\ (closed (bodyQueue s) = true -> serving s = false /\ quiescent s).
Proof.
  intros Hr Hg. destruct (exec_settled _ _ _ Hr Hg) as [HI [Hp Hq]].
  split; [done|]. intros Hc. apply Hq.
  apply (inv_closed _ HI) in Hc. destruct Hc as [Hc | [Hc | Hc]];
    rewrite Hc; cbn; lia.
Qed.

Lemma graceful_run_never_panics_witness : panicked finalState = false.
Proof.
  apply (graceful_run_never_panics sampleConfig shutdownSchedule finalState);
    reflexivity.
Defined.

Lemma stepHandler_ctxs i s s' :
  stepHandler i s = Some s' -> ctx <$> handlers s' = ctx <$> handlers s.
Proof.
  unfold stepHandler. intros H.
  destruct (handlers s !! i) as [h|] eqn:Hi; [|done].
  assert (Hid : forall h', ctx h' = ctx h ->
                  ctx <$> <[i := h']> (handlers s) = ctx <$> handlers s).
  { intros h' Hh'. rewrite list_fmap_insert, Hh'. apply list_insert_id.
    by rewrite list_lookup_fmap, Hi. }
  step_cases H; cbn; try done; by apply Hid.
Qed.

Lemma step_ctxs a s s' :
  step a s = Some s' ->
  ctx <$> handlers s' = ((ctx <$> handlers s) ++ accepted [a])%list.
Proof.
  unfold step. intros H.
  destruct (panicked s || exited (mainpc s)); [done|].
  destruct a as [|r|i|j|e]; cbn; rewrite ?app_nil_r.
  - by injection H as <-.
  - destruct (serving s); [|done]. injection H as <-. cbn.
    by rewrite fmap_app.
  - by apply (stepHandler_ctxs i).
  - apply stepWorker_frame in H as (_ & -> & _). done.
  - apply stepMain_frame in H as (-> & _). done.
Qed.

Lemma run_ctxs sched s0 s :
  run sched s0 = Some s ->
  ctx <$> handlers s = ((ctx <$> handlers s0) ++ accepted sched)%list.
Proof.
  revert s0. induction sched as [|a sched IH]; intros s0 Hr; simpl in Hr.
  - injection Hr as <-. by rewrite app_nil_r.
  - destruct (step a s0) as [s1|] eqn:Hs; [|done].
    rewrite (IH s1 Hr), (step_ctxs _ _ _ Hs), <- app_assoc.
    unfold accepted. cbn. by rewrite app_nil_r.
Qed.

Lemma exec_ctxs cfg sched s :
  exec cfg sched = Some s -> ctx <$> handlers s = accepted sched.
Proof.
  unfold exec, boot. destruct (queueSizeFlag cfg <? 0); [done|].
  intros Hr. by rewrite (run_ctxs _ _ _ Hr).
Qed.

(** X7. The report of a graceful run with at least one worker is
    complete: when [main] has returned, the handlers are exactly the
    requests that came in, in order, all of them returned; the report is
    the last thing on the console; and the totals it shows are the number
    of requests, the number of requests whose body was dropped, and the
    bytes of all the other bodies (for totals in the 64-bit range). *)
Theorem graceful_final_report (cfg : Config) (sched : list action) (s : State) :
  exec cfg sched = Some s -> forallb graceful sched = true ->
  mainpc s = MExit -> 0 < workersFlag cfg ->
  Int64.in_range (Z.of_nat (length (accepted sched))) ->
  Int64.in_range (sumZ bodyLen (handlers s)) ->
  ctx <$> handlers s = accepted sched
  /\ quiescent s
  /\ (exists pre, console s = (pre ++ displayMetrics (metrics s) (counters s))%list)
  /\ totalRequests (metrics s) = Z.of_nat (length (accepted sched))
  /\ droppedBodies (metrics s)
     = sumZ (fun h => if dropped h then 1 else 0) (handlers s)
  /\ totalBodySize (metrics s)
     = sumZ bodyLen (handlers s) - sumZ droppedLen (handlers s).
Proof.
  intros Hr Hg Hpc Hw HrN Hrb.
  destruct (exec_settled _ _ _ Hr Hg) as [HI [_ Hq]].
  destruct Hq as [_ Hq]; [rewrite Hpc; cbn; lia|].
  pose proof (exec_ctxs _ _ _ Hr) as Hctx.
  assert (Hlen : length (handlers s) = length (accepted sched)).
  { by rewrite <- Hctx, length_fmap. }
  rewrite <- Hlen in HrN.
  assert (Hex : forall w, w ∈ workers s -> w = WExited).
  { apply all_exited; [done|]. apply (inv_display _ HI). by right. }
  assert (Hbuf : buf (bodyQueue s) = []).
  { destruct (reachable_sizes cfg s (exec_reachable _ _ _ Hr)) as [_ Hn].
    destruct (workers s) as [|w ws] eqn:Hws; [cbn in Hn; lia|].
    apply (inv_exited _ HI). rewrite Hws, <- (Hex w) by (by left). by left. }
  assert (Hhand : sumZ inHand (workers s) = 0).
  { apply sumZ_zero. intros w Hin. by rewrite (Hex w Hin). }
  split; [done|]. split; [done|]. split; [by apply (inv_report _ HI)|].
  split; [|split].
  - rewrite (inv_total _ HI), quiescent_countedTotal, <- Hlen by done.
    by apply wrap_small.
  - rewrite (inv_dropped _ HI), quiescent_countedDrop by done.
    apply wrap_small. eapply in_range_nonneg_le; [|exact HrN]. split.
    + apply sumZ_nonneg. intros h. apply dropped_le_one.
    + rewrite <- (sumZ_length (fun _ : Handler => 1) (handlers s)) by done.
      apply sumZ_le. intros h _. apply dropped_le_one.
  - rewrite (inv_bytes _ HI), Hbuf, Hhand. cbn [sumZ foldr]. rewrite !Z.sub_0_r.
    rewrite quiescent_sent_dropped by done. apply wrap_small.
    eapply in_range_nonneg_le; [|exact Hrb]. split.
    + assert (sumZ droppedLen (handlers s) <= sumZ bodyLen (handlers s)).
      { apply sumZ_le. intros h _. apply droppedLen_bounds. }
      lia.
    + assert (0 <= sumZ droppedLen (handlers s)).
      { apply sumZ_nonneg. intros h. apply droppedLen_bounds. }
      lia.
Qed.

Lemma graceful_final_report_witness :
  totalRequests (metrics finalState) = 2
  /\ totalBodySize (metrics finalState) = 5.
Proof.
  destruct (graceful_final_report sampleConfig shutdownSchedule finalState)
    as (_ & _ & _ & Htot & _ & Hbytes);
    [reflexivity | reflexivity | reflexivity | reflexivity
     | small_range | small_range |].
  split; [exact Htot | exact Hbytes].
Defined.

(** ** Running without workers *)

(** The handler's body was accepted by the queue. *)
Definition sentOne (h : Handler) : Z := if sent h then 1 else 0.

(** Nothing has left the queue. *)
Definition untouched (s : State) : Prop :=
  totalBodySize (metrics s) = 0
  /\ sumZ sentLen (handlers s) = sumZ queuedLen (buf (bodyQueue s))
  /\ sumZ sentOne (handlers s) = Z.of_nat (length (buf (bodyQueue s))).

Lemma stepHandler_untouched i s s' :
  Inv s -> workers s = [] -> stepHandler i s = Some s' ->
  untouched s -> untouched s'.
Proof.
  intros HI Hws H (Hb & Hl & Hn). unfold stepHandler in H.
  destruct (handlers s !! i) as [h|] eqn:Hi; [|done].
  assert (Hok : handlerOk (methodCounts (metrics s)) h).
  { apply (inv_handlers _ HI). by apply list_elem_of_lookup_2 in Hi. }
  assert (Hsame : forall h' s1,
            branch h' = branch h -> ctx h' = ctx h ->
            totalBodySize (metrics s1) = totalBodySize (metrics s) ->
            handlers s1 = handlers s -> bodyQueue s1 = bodyQueue s ->
            untouched (putHandler i h' s1)).
  { intros h' s1 Hbr Hctx Hm Hh Hq. unfold untouched, putHandler.
    cbn [handlers metrics bodyQueue setHandlers].
    rewrite Hm, Hh, Hq, !(sumZ_insert _ _ _ _ _ Hi).
    replace (sentLen h') with (sentLen h)
      by (unfold sentLen, sent, bodyLen; by rewrite Hbr, Hctx).
    replace (sentOne h') with (sentOne h)
      by (unfold sentOne, sent; by rewrite Hbr).
    lia. }
  destruct (hpc h) eqn:Hpc; try done;
    try (injection H as <-; by apply Hsame).
  - destruct (0 <? len (Body (ctx h))) eqn:Hlen;
      [|injection H as <-; by apply Hsame].
    destruct Hok as [_ Hst]. rewrite Hpc in Hst. destruct Hst as [_ Hbr].
    unfold trySend in H.
    destruct (closed (bodyQueue s)); [by injection H as <-|].
    destruct (recvq (bodyQueue s)) as [|w rest] eqn:Hrq.
    + destruct (length (buf (bodyQueue s)) <? dataqsiz (bodyQueue s))%nat.
      * injection H as <-. unfold untouched, putHandler.
        cbn [handlers metrics bodyQueue setHandlers setWorkers setBodyQueue setBuf buf].
        rewrite !(sumZ_insert _ _ _ _ _ Hi), sumZ_app, length_app.
        replace (sentLen h) with 0 by (unfold sentLen, sent; by rewrite Hbr).
        replace (sentOne h) with 0 by (unfold sentOne, sent; by rewrite Hbr).
        unfold sentLen at 2. unfold sentOne at 2. unfold sent, bodyLen.
        cbn. unfold queuedLen in *. cbn. lia.
      * injection H as <-. unfold untouched, putHandler.
        cbn [handlers metrics bodyQueue setHandlers setWorkers setBodyQueue setBuf buf].
        rewrite !(sumZ_insert _ _ _ _ _ Hi).
        replace (sentLen h) with 0 by (unfold sentLen, sent; by rewrite Hbr).
        replace (sentOne h) with 0 by (unfold sentOne, sent; by rewrite Hbr).
        unfold sentLen at 2. unfold sentOne at 2. unfold sent.
        cbn. lia.
    + pose proof (inv_recvq _ HI w) as Hw. rewrite Hrq, Hws in Hw.
      specialize (Hw ltac:(by left)). done.
  - destruct (writer _); [done | injection H as <-; by apply Hsame].
  - destruct (_ || _); [done | injection H as <-; by apply Hsame].
  - destruct (counters s !! counter); injection H as <-; [by apply Hsame | done].
Qed.

Lemma step_untouched a s s' :
  Inv s -> workers s = [] -> step a s = Some s' -> untouched s -> untouched s'.
Proof.
  intros HI Hws H Hu. unfold step in H.
  destruct (panicked s || exited (mainpc s)); [done|].
  destruct a as [|r|i|j|e].
  - by injection H as <-.
  - destruct (serving s); [|done]. injection H as <-.
    destruct Hu as (Hb & Hl & Hn). unfold untouched.
    cbn [handlers metrics bodyQueue setHandlers].
    rewrite !sumZ_app. cbn [sumZ foldr].
    replace (sentLen (newHandler r)) with 0 by done.
    replace (sentOne (newHandler r)) with 0 by done.
    lia.
  - by apply (stepHandler_untouched i s).
  - unfold stepWorker in H. by rewrite Hws in H.
  - apply stepMain_frame in H as (Hh & _ & _ & _ & Hbuf & Hm & _).
    unfold untouched. by rewrite Hh, Hbuf, Hm.
Qed.

Lemma run_untouched sched s0 s :
  Inv s0 -> workers s0 = [] -> untouched s0 -> run sched s0 = Some s ->
  untouched s.
Proof.
  revert s0. induction sched as [|a sched IH]; intros s0 HI Hws Hu Hr; simpl in Hr.
  - by injection Hr as <-.
  - destruct (step a s0) as [s1|] eqn:Hs; [|done].
    apply (IH s1); [by eapply step_Inv | | by eapply step_untouched | done].
    apply step_sizes in Hs as [_ Hlen]. rewrite Hws in Hlen.
    by destruct (workers s1).
Qed.

(** The handler's body was rejected by the queue. *)
Definition droppedOne (h : Handler) : Z := if dropped h then 1 else 0.

Definition nonEmptyOne (h : Handler) : Z := if 0 <? bodyLen h then 1 else 0.

Lemma returned_body_accounted mc h :
  handlerOk mc h -> hpc h = HReturned ->
  nonEmptyOne h = sentOne h + droppedOne h.
Proof.
  unfold handlerOk. intros [_ Hb] Hpc. rewrite Hpc in Hb. destruct Hb as [_ Hb].
  unfold nonEmptyOne, sentOne, droppedOne, sent, dropped.
  destruct (0 <? bodyLen h).
  - destruct Hb as [b Hb]. rewrite Hb. by destruct b.
  - by rewrite Hb.
Qed.

(** X8. With [-workers 0] (or a negative count) no goroutine reads the
    queue: totalBodySize stays 0, every accepted body stays in the queue,
    so at most [-queue] bodies are ever accepted (none with [-queue 0]);
    and [wg.Wait] does not block.  While the queue is open, the push of
    a non-empty body is accepted into the buffer when fewer than [-queue]
    bodies are queued, and otherwise takes the default branch, where
    droppedBodies is incremented.  Once every handler has returned, each
    non-empty body is either in the queue or counted in droppedBodies. *)
Theorem no_workers_no_processing (cfg : Config) (s : State) :
  reachable cfg s -> workersFlag cfg <= 0 ->
  workers s = [] /\ wg s = 0%nat
  /\ totalBodySize (metrics s) = 0
  /\ sumZ sentLen (handlers s) = sumZ queuedLen (buf (bodyQueue s))
  /\ sumZ sentOne (handlers s) = Z.of_nat (length (buf (bodyQueue s)))
  /\ sumZ sentOne (handlers s) <= queueSizeFlag cfg
  /\ (forall i h,
        handlers s !! i = Some h -> hpc h = HSelect -> 0 < bodyLen h ->
        closed (bodyQueue s) = false ->
        let rb := {| body := Body (ctx h); method := Method (ctx h) |} in
        exists s',
          stepHandler i s = Some s' /\ workers s' = [] /\
          if (length (buf (bodyQueue s)) <? Z.to_nat (queueSizeFlag cfg))%nat
          then buf (bodyQueue s') = (buf (bodyQueue s) ++ [rb])%list
               /\ handlers s' !! i = Some (took SentCase (atPC HTotalAdd h))
               /\ metrics s' = metrics s
          else bodyQueue s' = bodyQueue s
               /\ handlers s' !! i = Some (took DefaultCase (atPC HDropAdd h))
               /\ exists s'',
                    stepHandler i s' = Some s''
                    /\ droppedBodies (metrics s'')
                       = Int64.Add (droppedBodies (metrics s)) 1
                    /\ bodyQueue s'' = bodyQueue s)
  /\ (quiescent s ->
      sumZ nonEmptyOne (handlers s)
      = Z.of_nat (length (buf (bodyQueue s))) + sumZ droppedOne (handlers s)
      /\ droppedBodies (metrics s) = Int64.wrap (sumZ droppedOne (handlers s))).
Proof.
  intros Hr Hw. pose proof (reachable_Inv _ _ Hr) as HI.
  destruct (reachable_sizes _ _ Hr) as [Hq Hlen].
  assert (Hws : workers s = []).
  { destruct (workers s); [done|]. cbn in Hlen. lia. }
  assert (Hu : untouched s).
  { destruct Hr as (s0 & sched & Hb & Hrun).
    apply (run_untouched sched s0); [by eapply boot_Inv | | | done];
      unfold boot in Hb; destruct (queueSizeFlag cfg <? 0); try done;
      injection Hb as <-; cbn.
    - by replace (Z.to_nat (workersFlag cfg)) with 0%nat by lia.
    - done. }
  destruct Hu as (Hb & Hl & Hn).
  split; [done|]. split.
  { pose proof (inv_wg _ HI) as Hwg. rewrite Hws in Hwg. cbn in Hwg. lia. }
  split; [done|]. split; [done|]. split; [done|]. split.
  { rewrite Hn. pose proof (inv_cap _ HI) as Hcap. rewrite Hq in Hcap.
    assert (0 <= queueSizeFlag cfg).
    { destruct Hr as (s0 & _ & Hboot & _). unfold boot in Hboot.
      destruct (Z.ltb_spec (queueSizeFlag cfg) 0); [done | lia]. }
    lia. }
  split.
  - intros i h Hi Hpc Hpos Hcl rb.
    assert (Hrq : recvq (bodyQueue s) = []).
    { destruct (recvq (bodyQueue s)) as [|w rest] eqn:Hrq; [done|].
      pose proof (inv_recvq _ HI w) as Hpark. rewrite Hrq, Hws in Hpark.
      by specialize (Hpark ltac:(by left)). }
    assert (i < length (handlers s))%nat as Hlt by (by eapply lookup_lt_Some).
    unfold stepHandler. rewrite Hi, Hpc. cbn zeta.
    apply Z.ltb_lt in Hpos. unfold bodyLen in Hpos. rewrite Hpos. fold rb.
    unfold trySend. rewrite Hcl, Hrq, Hq.
    destruct (length (buf (bodyQueue s)) <? Z.to_nat (queueSizeFlag cfg))%nat.
    + eexists. split; [reflexivity|].
      cbn [handlers workers bodyQueue metrics buf putHandler setHandlers
           setWorkers setBodyQueue setBuf].
      rewrite list_lookup_insert_eq by done. done.
    + eexists. split; [reflexivity|].
      cbn [handlers workers bodyQueue metrics putHandler setHandlers].
      rewrite list_lookup_insert_eq by done.
      split; [done|]. split; [done|]. split; [done|].
      cbn [hpc took atPC].
      eexists. split; [reflexivity|]. by cbn.
  - intros Hqu.
    assert (Hsum : sumZ nonEmptyOne (handlers s)
                   = sumZ sentOne (handlers s) + sumZ droppedOne (handlers s)).
    { rewrite <- sumZ_add. apply sumZ_ext. intros h Hin.
      eapply returned_body_accounted; [by apply (inv_handlers _ HI) | by apply Hqu]. }
    split; [lia|].
    rewrite (inv_dropped _ HI). f_equal. by apply quiescent_countedDrop.
Qed.

(** Three POSTs to a server without workers and with room for two
    bodies. *)
Definition unattendedConfig : Config := {| workersFlag := 0; queueSizeFlag := 2 |}.

Definition unattendedSchedule : list action :=
  Accept (post "/a" "hello") :: replicate 12 (StepHandler 0)
  ++ Accept (post "/b" "world") :: replicate 8 (StepHandler 1)
  ++ Accept (post "/c" "again") :: replicate 9 (StepHandler 2).

Definition unattendedState : State :=
  Eval vm_compute in default sampleState (exec unattendedConfig unattendedSchedule).

Lemma unattendedState_reachable : reachable unattendedConfig unattendedState.
Proof. apply (exec_reachable _ unattendedSchedule). vm_compute. reflexivity. Qed.

Lemma no_workers_no_processing_witness :
  totalBodySize (metrics unattendedState) = 0
  /\ sumZ sentOne (handlers unattendedState)
     = Z.of_nat (length (buf (bodyQueue unattendedState)))
  /\ sumZ nonEmptyOne (handlers unattendedState)
     = Z.of_nat (length (buf (bodyQueue unattendedState)))
       + sumZ droppedOne (handlers unattendedState)
  /\ droppedBodies (metrics unattendedState)
     = Int64.wrap (sumZ droppedOne (handlers unattendedState)).
Proof.
  destruct (no_workers_no_processing unattendedConfig unattendedState
              unattendedState_reachable) as (_ & _ & Hb & _ & Hn & _ & _ & Hq);
    [cbn; lia|].
  destruct Hq as [Hall Hd]; [apply quiescentb_ok; reflexivity|].
  split; [exact Hb|]. split; [exact Hn|]. split; [exact Hall | exact Hd].
Defined.

(** ** The method section of the report *)

Lemma requestsWith_pos meth s :
  0 < requestsWith meth s <-> exists h, h ∈ handlers s /\ Method (ctx h) = meth.
Proof.
  unfold requestsWith. split.
  - intros Hpos.
    destruct (sumZ_pos_witness _ _ Hpos) as (i & h & Hi & Hne).
    exists h. split; [by apply list_elem_of_lookup_2 in Hi|].
    by destruct (decide (Method (ctx h) = meth)).
  - intros (h & Hin & Hm). apply list_elem_of_lookup in Hin as [i Hi].
    pose proof (sumZ_lookup_le
                  (fun h => if decide (Method (ctx h) = meth) then 1 else 0)
                  (handlers s) i h) as Hle.
    cbn beta in Hle. rewrite decide_True in Hle by done.
    specialize (Hle ltac:(intros x; case_decide; lia) Hi). lia.
Qed.

Lemma requestsWith_le meth s :
  requestsWith meth s <= Z.of_nat (length (handlers s)).
Proof.
  unfold requestsWith.
  rewrite <- (sumZ_length (fun _ : Handler => 1) (handlers s)) by done.
  apply sumZ_le. intros h _. case_decide; lia.
Qed.

(** X9. The report made once every handler has returned ends with the
    method section: the heading, then exactly one line for each distinct
    method some request used (in the unspecified order of the map
    iteration), showing the number of requests with that method and its
    share of all requests, then the closing rule.  No share divides by
    zero (for a request count in the 64-bit range). *)
Theorem report_method_lines (cfg : Config) (s : State) :
  reachable cfg s -> quiescent s ->
  Int64.in_range (Z.of_nat (length (handlers s))) ->
  let N := Z.of_nat (length (handlers s)) in
  let line := fun meth =>
    Printf "  %-8s %d (%.1f%%)\n"
      [AStr meth; AInt (requestsWith meth s);
       AFloat (percentOf (requestsWith meth s) N)] in
  exists ks pre,
    NoDup ks
    /\ (forall meth, meth ∈ ks <-> exists h, h ∈ handlers s /\ Method (ctx h) = meth)
    /\ displayMetrics (metrics s) (counters s)
       = (pre ++ Println (LF +:+ "Requests by Method:")
              :: map line ks ++ [Println (Repeat "=" 50)])%list
    /\ (forall meth, meth ∈ ks ->
          0 < requestsWith meth s <= N
          /\ divides_by_zero (percentOf (requestsWith meth s) N) = false).
Proof.
  intros Hr Hq HrN N line. pose proof (reachable_Inv _ _ Hr) as HI.
  set (mc := methodCounts (metrics s)).
  assert (Hkeys : forall meth,
            meth ∈ (map_to_list mc).*1
            <-> exists h, h ∈ handlers s /\ Method (ctx h) = meth).
  { intros meth. rewrite list_elem_of_fmap. split.
    - intros ([k a] & -> & Hin). apply elem_of_map_to_list in Hin.
      apply (inv_used _ HI). by eexists.
    - intros (h & Hin & Hm). pose proof (inv_handlers _ HI h Hin) as [Hp _].
      rewrite (Hq h Hin), Hm in Hp. destruct Hp as [a Ha].
      exists (meth, a). split; [done|]. by apply elem_of_map_to_list. }
  assert (Htot : totalRequests (metrics s) = N).
  { rewrite (inv_total _ HI), quiescent_countedTotal by done.
    by apply wrap_small. }
  exists ((map_to_list mc).*1).
  eexists (_ :: _ :: _ :: _ :: _ :: displayAverage _ _ ++ displayDropped _ _)%list.
  split; [apply NoDup_fst_map_to_list|]. split; [done|]. split.
  - unfold displayMetrics. cbn [app]. rewrite <- !app_assoc. cbn [app].
    do 5 (apply (f_equal2 cons); [reflexivity|]).
    do 2 (apply (f_equal2 app); [reflexivity|]).
    apply (f_equal2 cons); [reflexivity|].
    apply (f_equal2 app); [|reflexivity].
    change (fst <$> map_to_list mc) with (map fst (map_to_list mc)).
    rewrite map_map. apply map_ext_in. intros [k a] Hin.
    apply list_elem_of_In, elem_of_map_to_list in Hin.
    unfold displayMethod, line, Load. cbn [fst snd].
    rewrite (inv_count _ HI _ _ Hin). cbn [default from_option].
    assert (Int64.wrap (callsOf k s) = requestsWith k s) as ->.
    { rewrite wrap_small
        by (eapply in_range_nonneg_le; [apply callsOf_bounds | done]).
      unfold callsOf, requestsWith. apply sumZ_ext. intros h Hh.
      by apply countedMethod_returned, Hq. }
    by rewrite Htot.
  - intros meth Hin. apply Hkeys, requestsWith_pos in Hin.
    pose proof (requestsWith_le meth s). fold N in H.
    split; [lia|]. unfold divides_by_zero, percentOf. cbn.
    destruct (Z.eqb_spec N 0); [lia | done].
Qed.

Lemma report_method_lines_witness :
  exists ks pre,
    NoDup ks
    /\ (forall meth, meth ∈ ks
          <-> exists h, h ∈ handlers sampleState /\ Method (ctx h) = meth)
    /\ displayMetrics (metrics sampleState) (counters sampleState)
       = (pre ++ Println (LF +:+ "Requests by Method:")
              :: map (fun meth =>
                        Printf "  %-8s %d (%.1f%%)\n"
                          [AStr meth; AInt (requestsWith meth sampleState);
                           AFloat (percentOf (requestsWith meth sampleState) 2)])
                   ks
              ++ [Println (Repeat "=" 50)])%list
    /\ (forall meth, meth ∈ ks ->
          0 < requestsWith meth sampleState <= 2
          /\ divides_by_zero (percentOf (requestsWith meth sampleState) 2) = false).
Proof.
  apply (report_method_lines sampleConfig sampleState).
  - apply sampleState_reachable.
  - apply quiescentb_ok. reflexivity.
  - small_range.
Defined.

(** ** Termination of the handlers past their dump block *)

(** The statements a handler has left on its longest path, from its
    [select] on (the dump block before it is not counted). *)
Definition remaining (p : HandlerPC) : Z :=
  match p with
  | HSetStatus | HDump | HSelect => 11
  | HDropAdd => 10
  | HTotalAdd => 9
  | HRLock => 8
  | HLookup => 7
  | HRUnlock _ => 6
  | HLock => 5
  | HRecheck => 4
  | HCreate => 3
  | HUnlock _ => 2
  | HCounterAdd _ => 1
  | HReturned => 0
  end.

Definition backlog (s : State) : Z :=
  sumZ (fun h => remaining (hpc h)) (handlers s).

Definition handlerStep (a : action) : bool :=
  match a with StepHandler _ => true | _ => false end.

(** Every handler in the state is past its dump block. *)
Definition pastDump (s : State) : Prop :=
  forall h, h ∈ handlers s -> printed h = true.

Lemma remaining_bounds p : 0 <= remaining p <= 11.
Proof. destruct p; cbn; lia. Qed.

Lemma backlog_bounds s : 0 <= backlog s <= 11 * Z.of_nat (length (handlers s)).
Proof.
  unfold backlog. split.
  - apply sumZ_nonneg. intros h. apply remaining_bounds.
  - induction (handlers s) as [|h l IH]; cbn [sumZ foldr length]; [lia|].
    pose proof (remaining_bounds (hpc h)).
    change (foldr _ 0 l) with (sumZ (fun h => remaining (hpc h)) l). lia.
Qed.

(** A step of a handler past its dump block, with the queue open, leaves
    it past the dump block with fewer statements to go. *)
Lemma stepHandler_decreases i s s' h :
  Inv s -> closed (bodyQueue s) = false ->
  handlers s !! i = Some h -> printed h = true ->
  stepHandler i s = Some s' ->
  backlog s' < backlog s
  /\ exists h', handlers s' = <[i := h']> (handlers s) /\ printed h' = true.
Proof.
  intros HI Hc Hi Hp H. unfold stepHandler in H. rewrite Hi in H.
  assert (Hok : handlerOk (methodCounts (metrics s)) h).
  { apply (inv_handlers _ HI). by apply list_elem_of_lookup_2 in Hi. }
  assert (Hput : forall h' s1,
            handlers s1 = handlers s ->
            remaining (hpc h') < remaining (hpc h) -> printed h' = true ->
            backlog (putHandler i h' s1) < backlog s
            /\ exists h'', handlers (putHandler i h' s1) = <[i := h'']> (handlers s)
                           /\ printed h'' = true).
  { intros h' s1 Hh Hlt Hp'. split.
    - unfold backlog, putHandler. cbn [handlers setHandlers].
      rewrite Hh, (sumZ_insert _ _ _ _ _ Hi). lia.
    - exists h'. split; [|done]. unfold putHandler. cbn [handlers setHandlers].
      by rewrite Hh. }
  unfold printed in Hp.
  destruct (hpc h) eqn:Hpc; try done;
    try (injection H as <-; apply Hput;
         [done | cbn; rewrite ?Hpc; cbn; lia | done]).
  - destruct (0 <? len (Body (ctx h)));
      [|injection H as <-; apply Hput;
        [done | cbn; rewrite ?Hpc; cbn; lia | done]].
    unfold trySend in H. rewrite Hc in H.
    destruct (recvq (bodyQueue s)).
    + destruct (length (buf (bodyQueue s)) <? dataqsiz (bodyQueue s))%nat;
        injection H as <-; apply Hput; try done; cbn; rewrite ?Hpc; cbn; lia.
    + injection H as <-; apply Hput;
        [done | cbn; rewrite ?Hpc; cbn; lia | done].
  - destruct (writer _); [done|].
    injection H as <-; apply Hput; [done | cbn; rewrite ?Hpc; cbn; lia | done].
  - injection H as <-; apply Hput;
      [done | cbn; rewrite ?Hpc; destruct counter; cbn; lia
       | unfold printed; cbn; by destruct counter].
  - destruct (_ || _); [done|].
    injection H as <-; apply Hput; [done | cbn; rewrite ?Hpc; cbn; lia | done].
  - injection H as <-; apply Hput;
      [done
       | cbn; rewrite ?Hpc;
         destruct (methodCounts (metrics s) !! Method (ctx h)); cbn; lia
       | unfold printed; cbn;
         by destruct (methodCounts (metrics s) !! Method (ctx h))].
  - destruct Hok as [Hm _]. rewrite Hpc in Hm.
    rewrite (inv_count _ HI _ _ Hm) in H.
    injection H as <-; apply Hput; [done | cbn; rewrite ?Hpc; cbn; lia | done].
Qed.

Lemma forallb_false_witness {A} (f : A -> bool) (l : list A) :
  forallb f l = false -> exists x, x ∈ l /\ f x = false.
Proof.
  induction l as [|x l IH]; cbn; [done|].
  destruct (f x) eqn:Hx; cbn.
  - intros H. destruct (IH H) as (y & Hy & Hf). exists y. split; [by right | done].
  - intros _. exists x. split; [by left | done].
Qed.

(** The conditions under which the handlers past their dump block run
    safely. *)
Definition running (s : State) : Prop :=
  Inv s /\ panicked s = false /\ exited (mainpc s) = false
  /\ closed (bodyQueue s) = false /\ pastDump s.

Lemma running_stepHandler i s s' :
  running s -> stepHandler i s = Some s' ->
  step (StepHandler i) s = Some s' /\ running s' /\ backlog s' < backlog s
  /\ length (handlers s') = length (handlers s).
Proof.
  intros (HI & Hp & He & Hc & Hpd) H.
  assert (Hs : step (StepHandler i) s = Some s').
  { unfold step. by rewrite Hp, He. }
  destruct (handlers s !! i) as [h|] eqn:Hi;
    [|by unfold stepHandler in H; rewrite Hi in H].
  assert (Hin : h ∈ handlers s) by (by apply list_elem_of_lookup_2 in Hi).
  destruct (stepHandler_decreases i s s' h HI Hc Hi (Hpd h Hin) H)
    as (Hlt & h' & Hh & Hp').
  split; [done|]. split; [|split; [done|]].
  - split; [by eapply step_Inv|].
    rewrite (stepHandler_no_panic _ _ _ HI Hc H), (stepHandler_mainpc _ _ _ H).
    split; [done|]. split; [done|]. split.
    + apply stepHandler_frame in H as (_ & _ & _ & -> & _). done.
    + intros x Hx. rewrite Hh in Hx.
      apply elem_of_insert_inv in Hx as [-> | Hx]; [done | by apply Hpd].
  - apply stepHandler_frame in H. tauto.
Qed.

Lemma handlers_bounded sched s s' :
  running s -> forallb handlerStep sched = true -> run sched s = Some s' ->
  running s' /\ Z.of_nat (length sched) + backlog s' <= backlog s.
Proof.
  revert s. induction sched as [|a sched IH]; intros s Hrun Hall Hr; simpl in *.
  - injection Hr as <-. split; [done | lia].
  - apply andb_true_iff in Hall as [Ha Hall].
    destruct (step a s) as [s1|] eqn:Hs; [|done].
    destruct a as [| |i| |]; try done.
    assert (Hsh : stepHandler i s = Some s1).
    { unfold step in Hs. destruct (panicked s || exited (mainpc s)); done. }
    destruct (running_stepHandler _ _ _ Hrun Hsh) as (_ & Hrun1 & Hlt & _).
    destruct (IH s1 Hrun1 Hall Hr) as [Hrun' Hle]. split; [done | lia].
Qed.

Lemma handlers_finish n s :
  running s -> backlog s <= Z.of_nat n ->
  exists sched s',
    forallb handlerStep sched = true /\ run sched s = Some s'
    /\ quiescent s' /\ running s'
    /\ length (handlers s') = length (handlers s).
Proof.
  revert s. induction n as [|n IH]; intros s Hrun Hle.
  - exists [], s. split; [done|]. split; [done|]. split; [|done].
    intros h Hin. pose proof (backlog_bounds s) as [Hge _].
    assert (Hz : backlog s = 0) by lia.
    pose proof (sumZ_zero_inv (fun h => remaining (hpc h)) _ h
                  (fun x => proj1 (remaining_bounds (hpc x))) Hz Hin) as Hr.
    cbn beta in Hr. destruct (hpc h); cbn in Hr; lia || done.
  - destruct (forallb returned (handlers s)) eqn:Hall.
    + exists [], s. split; [done|]. split; [done|]. split; [|done].
      by apply quiescentb_ok.
    + destruct (forallb_false_witness _ _ Hall) as (h & Hin & Hnr).
      pose proof Hrun as (HI & _ & _ & _ & Hpd).
      destruct (some_handler_enabled s HI) as (i & h' & _ & _ & [s1 Hs] & _).
      { exists h. split; [done|]. split; [by apply Hpd|].
        intros Hpc. unfold returned in Hnr. by rewrite Hpc in Hnr. }
      destruct (running_stepHandler i s s1 Hrun Hs)
        as (Hstep & Hrun1 & Hlt & Hlen).
      destruct (IH s1 Hrun1) as (sched & s' & Hall' & Hr' & Hq & Hrun' & Hlen');
        [lia|].
      exists (StepHandler i :: sched), s'. split; [done|]. split.
      { simpl. by rewrite Hstep. }
      split; [done|]. split; [done|]. congruence.
Qed.

(** X11. The handlers that are past their dump block finish, and need
    nobody's help to do so.  While the program runs with the queue open
    and every handler in flight is past its dump block (so that none has
    console output left to write), the handlers can be run to their end
    without any step of a worker or of [main]; and however they are
    scheduled among themselves, each takes at most 11 steps from its
    [select] on, so no schedule of handler steps is longer than 11 per
    handler. *)
Theorem handlers_finish_past_dump (cfg : Config) (s : State) :
  reachable cfg s -> panicked s = false -> exited (mainpc s) = false ->
  closed (bodyQueue s) = false ->
  (forall h, h ∈ handlers s -> printed h = true) ->
  (forall sched s',
     forallb handlerStep sched = true -> run sched s = Some s' ->
     panicked s' = false
     /\ Z.of_nat (length sched) + backlog s' <= backlog s
     /\ Z.of_nat (length sched) <= 11 * Z.of_nat (length (handlers s)))
  /\ exists sched s',
       forallb handlerStep sched = true /\ run sched s = Some s'
       /\ quiescent s' /\ panicked s' = false
       /\ totalRequests (metrics s')
          = Int64.wrap (Z.of_nat (length (handlers s))).
Proof.
  intros Hr Hp He Hc Hpd. pose proof (reachable_Inv _ _ Hr) as HI.
  assert (Hrun : running s) by done.
  split.
  - intros sched s' Hall Hrs.
    destruct (handlers_bounded _ _ _ Hrun Hall Hrs) as [(_ & Hp' & _) Hle].
    pose proof (backlog_bounds s). pose proof (backlog_bounds s').
    split; [done|]. split; lia.
  - destruct (handlers_finish (Z.to_nat (backlog s)) s Hrun)
      as (sched & s' & Hall & Hrs & Hq & (HI' & Hp' & _) & Hlen).
    { pose proof (backlog_bounds s). lia. }
    exists sched, s'. split; [done|]. split; [done|]. split; [done|].
    split; [done|].
    by rewrite (inv_total _ HI'), quiescent_countedTotal, Hlen.
Qed.

Lemma handlers_finish_past_dump_witness :
  exists sched s',
    forallb handlerStep sched = true /\ run sched contendedState = Some s'
    /\ quiescent s' /\ panicked s' = false
    /\ totalRequests (metrics s') = Int64.wrap 2.
Proof.
  destruct (handlers_finish_past_dump sampleConfig contendedState) as [_ H];
    [apply contendedState_reachable | reflexivity | reflexivity | reflexivity
     | each_handler |].
  exact H.
Defined.

(** ** The workers empty the queue *)

Definition holdingOne (w : WorkerPC) : Z := if holding w then 1 else 0.

(** Two steps for each queued body (the receive and the [Add]) and one
    for each body a worker holds. *)
Definition pendingWork (s : State) : Z :=
  2 * Z.of_nat (length (buf (bodyQueue s))) + sumZ holdingOne (workers s).

Definition workerStep (a : action) : bool :=
  match a with StepWorker _ => true | _ => false end.

Lemma holdingOne_bounds w : 0 <= holdingOne w <= 1.
Proof. unfold holdingOne. destruct (holding w); lia. Qed.

Lemma pendingWork_bounds s :
  0 <= pendingWork s
  <= 2 * Z.of_nat (length (buf (bodyQueue s))) + Z.of_nat (length (workers s)).
Proof.
  unfold pendingWork.
  assert (0 <= sumZ holdingOne (workers s)).
  { apply sumZ_nonneg. intros w. apply holdingOne_bounds. }
  assert (sumZ holdingOne (workers s) <= Z.of_nat (length (workers s))).
  { rewrite <- (sumZ_length (fun _ : WorkerPC => 1) (workers s)) by done.
    apply sumZ_le. intros w _. apply holdingOne_bounds. }
  lia.
Qed.

(** The process is running and has at least one worker. *)
Definition staffed (s : State) : Prop :=
  Inv s /\ panicked s = false /\ exited (mainpc s) = false /\ workers s <> [].

(** With work pending, some worker can take a step that reduces it. *)
Lemma worker_enabled s :
  staffed s -> 0 < pendingWork s ->
  exists j s',
    step (StepWorker j) s = Some s' /\ staffed s'
    /\ pendingWork s' = pendingWork s - 1
    /\ handlers s' = handlers s.
Proof.
  intros (HI & Hp & He & Hne) Hpos.
  assert (Hstep : forall j s', stepWorker j s = Some s' ->
            step (StepWorker j) s = Some s' /\ staffed s'
            /\ handlers s' = handlers s).
  { intros j s' Hs.
    assert (Hst : step (StepWorker j) s = Some s').
    { unfold step. by rewrite Hp, He. }
    split; [done|]. split.
    - split; [by eapply step_Inv|].
      rewrite (stepWorker_mainpc _ _ _ Hs).
      apply stepWorker_frame in Hs as (_ & _ & -> & _ & _ & Hlen).
      split; [done|]. split; [done|]. intros Hnil. rewrite Hnil in Hlen.
      by destruct (workers s).
    - apply stepWorker_frame in Hs. tauto. }
  destruct (Z.lt_ge_cases 0 (sumZ holdingOne (workers s))) as [Hhold | Hnone].
  - destruct (sumZ_pos_witness _ _ Hhold) as (j & w & Hj & Hw).
    unfold holdingOne in Hw. destruct w as [| |rb|]; try done.
    eexists j, _.
    assert (Hs : stepWorker j s
                 = Some (putWorker j WRecv
                           (setMetrics
                              (setTotalBodySize
                                 (Int64.Add (totalBodySize (metrics s)) (len (body rb)))
                                 (metrics s)) s))).
    { unfold stepWorker. by rewrite Hj. }
    destruct (Hstep _ _ Hs) as (Hst & Hstaffed & Hh).
    split; [exact Hst|]. split; [done|]. split; [|done].
    unfold pendingWork, putWorker. cbn [workers bodyQueue setWorkers setMetrics].
    rewrite (sumZ_insert _ _ _ _ _ Hj). cbn. lia.
  - assert (Hz : sumZ holdingOne (workers s) = 0).
    { pose proof (pendingWork_bounds s).
      assert (0 <= sumZ holdingOne (workers s))
        by (apply sumZ_nonneg; intros w; apply holdingOne_bounds).
      lia. }
    destruct (buf (bodyQueue s)) as [|rb rest] eqn:Hbuf.
    { unfold pendingWork in Hpos. rewrite Hbuf, Hz in Hpos. cbn in Hpos. lia. }
    destruct (workers s) as [|w ws] eqn:Hws; [done|].
    assert (Hin : w ∈ workers s) by (rewrite Hws; by left).
    assert (Hw : w = WRecv).
    { destruct w as [| |rb'|]; [done| | |].
      - pose proof (inv_parked_buf _ HI Hin) as Hb. by rewrite Hbuf in Hb.
      - pose proof (sumZ_zero_inv holdingOne (workers s) (WAdd rb')
                      (fun x => proj1 (holdingOne_bounds x))) as Hh.
        rewrite Hws in Hh. specialize (Hh Hz ltac:(by left)). done.
      - destruct (inv_exited _ HI Hin) as [_ Hb]. by rewrite Hbuf in Hb. }
    subst w. eexists 0%nat, _.
    assert (Hs : stepWorker 0 s
                 = Some (putWorker 0 (WAdd rb)
                           (setBodyQueue (setBuf rest (bodyQueue s)) s))).
    { unfold stepWorker. by rewrite Hws, Hbuf. }
    destruct (Hstep _ _ Hs) as (Hst & Hstaffed & Hh).
    split; [exact Hst|]. split; [done|]. split; [|done].
    unfold pendingWork, putWorker.
    cbn [workers bodyQueue setWorkers setBodyQueue setBuf buf].
    rewrite Hws, Hbuf. cbn [insert list_insert sumZ foldr length].
    change (foldr _ 0 ws) with (sumZ holdingOne ws).
    change (holdingOne (WAdd rb)) with 1. change (holdingOne WRecv) with 0.
    lia.
Qed.

Lemma workers_finish n s :
  staffed s -> pendingWork s <= Z.of_nat n ->
  exists sched s',
    forallb workerStep sched = true /\ run sched s = Some s'
    /\ staffed s' /\ pendingWork s' = 0
    /\ handlers s' = handlers s
    /\ Z.of_nat (length sched) = pendingWork s.
Proof.
  revert s. induction n as [|n IH]; intros s Hst Hle.
  - pose proof (pendingWork_bounds s).
    exists [], s. split; [done|]. split; [done|]. split; [done|].
    split; [lia|]. split; [done|]. cbn [length]. lia.
  - destruct (Z.lt_ge_cases 0 (pendingWork s)) as [Hpos | Hzero].
    + destruct (worker_enabled s Hst Hpos) as (j & s1 & Hstep & Hst1 & Hm & Hh).
      destruct (IH s1 Hst1) as (sched & s' & Hall & Hr & Hst' & Hz & Hh' & Hlen);
        [lia|].
      exists (StepWorker j :: sched), s'. split; [done|]. split.
      { simpl. by rewrite Hstep. }
      split; [done|]. split; [done|]. split; [congruence|].
      cbn [length]. lia.
    + pose proof (pendingWork_bounds s).
      exists [], s. split; [done|]. split; [done|]. split; [done|].
      split; [lia|]. split; [done|]. cbn [length]. lia.
Qed.

Lemma pendingWork_drained s : pendingWork s = 0 -> drained s.
Proof.
  unfold pendingWork. intros Hz.
  assert (0 <= sumZ holdingOne (workers s))
    by (apply sumZ_nonneg; intros w; apply holdingOne_bounds).
  split.
  - destruct (buf (bodyQueue s)); [done|]. cbn [length] in Hz. lia.
  - intros w Hin.
    pose proof (sumZ_zero_inv holdingOne (workers s) w
                  (fun x => proj1 (holdingOne_bounds x)) ltac:(lia) Hin) as Hw.
    unfold holdingOne in Hw. by destruct (holding w).
Qed.

(** X12. The workers always empty the queue, and need nobody's help to
    do so.  With at least one worker, from any state of the running
    program the workers alone reach a state where the queue is empty and
    no worker holds a body, in two steps for each queued body and one for
    each body in a worker's hands; totalBodySize is then the bytes of all
    the bodies the queue has accepted (modulo 2^64). *)
Theorem workers_drain_queue (cfg : Config) (s : State) :
  reachable cfg s -> panicked s = false -> exited (mainpc s) = false ->
  0 < workersFlag cfg ->
  exists sched s',
    forallb workerStep sched = true /\ run sched s = Some s'
    /\ drained s' /\ handlers s' = handlers s
    /\ Z.of_nat (length sched) = pendingWork s
    /\ totalBodySize (metrics s') = Int64.wrap (sumZ sentLen (handlers s)).
Proof.
  intros Hr Hp He Hw. pose proof (reachable_Inv _ _ Hr) as HI.
  assert (Hst : staffed s).
  { split; [done|]. split; [done|]. split; [done|].
    destruct (reachable_sizes _ _ Hr) as [_ Hlen]. intros Hnil.
    rewrite Hnil in Hlen. cbn in Hlen. lia. }
  destruct (workers_finish (Z.to_nat (pendingWork s)) s Hst)
    as (sched & s' & Hall & Hrs & (HI' & _) & Hz & Hh & Hlen).
  { pose proof (pendingWork_bounds s). lia. }
  pose proof (pendingWork_drained _ Hz) as Hd.
  exists sched, s'. split; [done|]. split; [done|]. split; [done|].
  split; [done|]. split; [done|].
  destruct (drained_nothing_pending _ Hd) as [Hb Hhand].
  rewrite (inv_bytes _ HI'), Hb, Hhand, Hh. f_equal. lia.
Qed.

(** Two bodies are queued and the worker has not started on them. *)
Definition queuedSchedule : list action :=
  Accept (post "/a" "hello") :: replicate 12 (StepHandler 0)
  ++ Accept (post "/b" "world") :: replicate 8 (StepHandler 1).

Definition queuedState : State :=
  Eval vm_compute in default sampleState (exec sampleConfig queuedSchedule).

Lemma queuedState_reachable : reachable sampleConfig queuedState.
Proof. apply (exec_reachable _ queuedSchedule). vm_compute. reflexivity. Qed.

Lemma workers_drain_queue_witness :
  exists sched s',
    forallb workerStep sched = true /\ run sched queuedState = Some s'
    /\ drained s' /\ handlers s' = handlers queuedState
    /\ Z.of_nat (length sched) = 4
    /\ totalBodySize (metrics s') = 10.
Proof.
  apply (workers_drain_queue sampleConfig queuedState);
    [apply queuedState_reachable | reflexivity | reflexivity | reflexivity].
Defined.
